(** * Shallow embedding of the tulayngmamamo message bridge

    The development follows the TypeScript sources:
    - [EventStore]: the per-session in-memory SSE event store
      ([InMemoryEventStore], mcp/eventStore.ts);
    - [Store]: the SQLite-backed store (db/clients.ts, db/conversations.ts,
      db/messages.ts, db/message_queue.ts) with tables as lists in rowid
      order and the database clock as an integer number of seconds;
    - [Queue]: the background [QueueProcessor];
    - [Agents]: persona selection (agents/registry.ts);
    - [Dispatcher]: [MessageDispatcher.sendMessage] and the
      [mark_message_read] tool handler;
    - [CodexClient]: [CodexMcpClient.extractResponse]. *)

From Stdlib Require Import ZArith Lia.
From stdpp Require Import base gmap strings list sorting pretty.

Open Scope Z_scope.

(* ------------------------------------------------------------------ *)
(** ** The in-memory event store *)
(* ------------------------------------------------------------------ *)

Module EventStore.

(** JSON-RPC payloads are opaque to the store. *)
Definition JSONRPCMessage := string.

Record EventRecord := mkEventRecord {
  id : string;
  ts : Z;
  message : JSONRPCMessage;
}.

Record StreamState := mkStreamState {
  nextSeq : nat;
  events : list EventRecord;
  indexById : gmap string nat;
}.

(** [InMemoryEventStore]: the streams map and the two options. *)
Record InMemoryEventStore := mkStore {
  streams : gmap string StreamState;
  ttlMs : Z;
  maxEventsPerStream : nat;
}.

(** [constructor(opts = {})]: ttl 15 minutes, cap 5000. *)
Definition newStore : InMemoryEventStore :=
  mkStore ∅ (15 * 60 * 1000) 5000.

Definition colon_char : Ascii.ascii := Ascii.ascii_of_nat 58.
Definition colon : string := String colon_char EmptyString.

(** [makeEventId]: [`${streamId}:${seq}`]. *)
Definition makeEventId (streamId : string) (seq : nat) : string :=
  streamId +:+ colon +:+ pretty (N.of_nat seq).

(** [eventId.indexOf(":")], with [None] for -1. *)
Fixpoint indexOfColon (s : string) : option nat :=
  match s with
  | EmptyString => None
  | String c rest => if Ascii.eqb c colon_char then Some 0%nat else option_map S (indexOfColon rest)
  end.

(** [parseStreamId]: [i === -1 ? "" : eventId.slice(0, i)]. *)
Definition parseStreamId (eventId : string) : string :=
  match indexOfColon eventId with
  | None => ""
  | Some i => String.substring 0 i eventId
  end.

(** The [while] loop of [pruneStream]: shift events older than the
    cutoff, deleting each shifted id from the index. *)
Fixpoint dropExpired (cutoff : Z) (evs : list EventRecord) (idx : gmap string nat)
  : list EventRecord * gmap string nat :=
  match evs with
  | [] => ([], idx)
  | ev :: rest =>
      if ts ev <? cutoff then dropExpired cutoff rest (delete (id ev) idx)
      else (evs, idx)
  end.

(** [s.indexById.clear(); s.events.forEach((ev, idx) => s.indexById.set(ev.id, idx))]. *)
Fixpoint rebuildFrom (m : gmap string nat) (i : nat) (evs : list EventRecord)
  : gmap string nat :=
  match evs with
  | [] => m
  | ev :: rest => rebuildFrom (<[id ev := i]> m) (S i) rest
  end.

Definition rebuild (evs : list EventRecord) : gmap string nat := rebuildFrom ∅ 0 evs.

(** The [for] loop of the cap branch: shift [n] events, deleting their ids. *)
Fixpoint shiftN (n : nat) (evs : list EventRecord) (idx : gmap string nat)
  : list EventRecord * gmap string nat :=
  match n, evs with
  | O, _ => (evs, idx)
  | S n', [] => ([], idx)
  | S n', ev :: rest => shiftN n' rest (delete (id ev) idx)
  end.

(** [pruneStream] on one stream state, at time [now] ([Date.now()]). *)
Definition pruneState (now ttl : Z) (maxE : nat) (s : StreamState) : StreamState :=
  let cutoff := now - ttl in
  let '(evs1, idx1) := dropExpired cutoff (events s) (indexById s) in
  let idx2 := if Nat.eqb (size idx1) (length evs1) then idx1 else rebuild evs1 in
  if Nat.ltb maxE (length evs1) then
    let '(evs3, _) := shiftN (length evs1 - maxE) evs1 idx2 in
    mkStreamState (nextSeq s) evs3 (rebuild evs3)
  else mkStreamState (nextSeq s) evs1 idx2.

Definition pruneStream (now : Z) (st : InMemoryEventStore) (streamId : string)
  : InMemoryEventStore :=
  match streams st !! streamId with
  | None => st
  | Some s =>
      mkStore (<[streamId := pruneState now (ttlMs st) (maxEventsPerStream st) s]> (streams st))
              (ttlMs st) (maxEventsPerStream st)
  end.

(** [storeEvent(streamId, message)] at time [now]; returns the new id. *)
Definition storeEvent (now : Z) (st : InMemoryEventStore) (streamId : string)
    (msg : JSONRPCMessage) : InMemoryEventStore * string :=
  let st0 :=
    match streams st !! streamId with
    | Some _ => st
    | None => mkStore (<[streamId := mkStreamState 1 [] ∅]> (streams st))
                      (ttlMs st) (maxEventsPerStream st)
    end in
  let st1 := pruneStream now st0 streamId in
  let s := default (mkStreamState 1 [] ∅) (streams st1 !! streamId) in
  let eid := makeEventId streamId (nextSeq s) in
  let rec := mkEventRecord eid now msg in
  let s' := mkStreamState (S (nextSeq s)) (events s ++ [rec])
                          (<[eid := length (events s)]> (indexById s)) in
  (mkStore (<[streamId := s']> (streams st1)) (ttlMs st1) (maxEventsPerStream st1), eid).

(** [replayEventsAfter(lastEventId, {send})] at time [now]: the new store,
    the [(eventId, message)] pairs passed to [send] in order, and the
    returned stream id. *)
Definition replayEventsAfter (now : Z) (st : InMemoryEventStore) (lastEventId : string)
  : InMemoryEventStore * list (string * JSONRPCMessage) * string :=
  if String.eqb lastEventId "" then (st, [], "") else
  let streamId := parseStreamId lastEventId in
  if String.eqb streamId "" then (st, [], "") else
  match streams st !! streamId with
  | None => (st, [], "")
  | Some _ =>
      let st1 := pruneStream now st streamId in
      let s := default (mkStreamState 1 [] ∅) (streams st1 !! streamId) in
      match indexById s !! lastEventId with
      | None => (st1, [], "")
      | Some startIdx =>
          (st1, map (fun ev => (id ev, message ev)) (drop (S startIdx) (events s)), streamId)
      end
  end.

End EventStore.

(* ------------------------------------------------------------------ *)
(** ** The SQLite store *)
(* ------------------------------------------------------------------ *)

Module Store.

Inductive ClientId := claude | codex.
Inductive ClientStatus := online | offline | busy.

Inductive MessageType :=
  | message | research_request | research_response
  | review_request | review_response | context_share | system.
Inductive MessagePriority := normal | high | urgent.
Inductive MessageStatus := pending | delivered | read | responded.

(** [ConversationStatus]: ['active' | 'pending' | 'completed' | 'archived']. *)
Inductive ConversationStatus := c_active | c_pending | c_completed | c_archived.

Definition ClientId_eqb (a b : ClientId) : bool :=
  match a, b with claude, claude | codex, codex => true | _, _ => false end.

(** Row identifiers produced by [randomUUID()] are drawn from a counter. *)
Definition uuid := nat.

Record Conversation := mkConversation {
  conv_id : uuid;
  conv_status : ConversationStatus;
  created_by : ClientId;
  conv_updated_at : Z;
  closed_at : option Z;
}.

Record Message := mkMessage {
  msg_id : uuid;
  conversation_id : uuid;
  sender : ClientId;
  target : ClientId;
  content : string;
  message_type : MessageType;
  priority : MessagePriority;
  status : MessageStatus;
  response_to_id : option uuid;
  created_at : Z;
  delivered_at : option Z;
  read_at : option Z;
}.

Record QueuedMessage := mkQueued {
  q_id : nat;
  message_id : uuid;
  q_target : ClientId;
  q_priority : Z;
  attempts : Z;
  max_attempts : Z;
  next_attempt : Z;
  q_created_at : Z;
}.

(** The database: the [clients.status] column, the tables in rowid order,
    the next [message_queue] rowid, the uuid supply and the clock read by
    [strftime('now')]. *)
Record DB := mkDB {
  clients : ClientId -> ClientStatus;
  conversations : list Conversation;
  messages : list Message;
  message_queue : list QueuedMessage;
  next_rowid : nat;
  next_uuid : uuid;
  now : Z;
}.

Definition set_messages (db : DB) (ms : list Message) : DB :=
  mkDB (clients db) (conversations db) ms (message_queue db) (next_rowid db) (next_uuid db) (now db).
Definition set_conversations (db : DB) (cs : list Conversation) : DB :=
  mkDB (clients db) cs (messages db) (message_queue db) (next_rowid db) (next_uuid db) (now db).
Definition set_queue (db : DB) (q : list QueuedMessage) : DB :=
  mkDB (clients db) (conversations db) (messages db) q (next_rowid db) (next_uuid db) (now db).
Definition fresh_uuid (db : DB) : uuid * DB :=
  (next_uuid db, mkDB (clients db) (conversations db) (messages db) (message_queue db)
                      (next_rowid db) (S (next_uuid db)) (now db)).

(** *** db/clients.ts *)

Definition isClientOnline (db : DB) (c : ClientId) : bool :=
  match clients db c with online => true | _ => false end.

(** [updateClientStatus(id, status)]; the session id column is not modelled. *)
Definition updateClientStatus (db : DB) (c : ClientId) (st : ClientStatus) : DB :=
  mkDB (fun c' => if ClientId_eqb c' c then st else clients db c') (conversations db)
       (messages db) (message_queue db) (next_rowid db) (next_uuid db) (now db).

(** *** db/conversations.ts *)

Definition getConversation (db : DB) (cid : uuid) : option Conversation :=
  find (fun c => Nat.eqb (conv_id c) cid) (conversations db).

(** [createConversation]: the row takes the schema defaults
    (status ['active'], [closed_at] NULL). *)
Definition createConversation (db : DB) (createdBy : ClientId) : Conversation * DB :=
  let '(cid, db1) := fresh_uuid db in
  let c := mkConversation cid c_active createdBy (now db1) None in
  (c, set_conversations db1 (conversations db1 ++ [c])).

(** [closeConversation] via [updateConversation(status: 'completed')]. *)
Definition closeConversation (db : DB) (cid : uuid) : option Conversation * DB :=
  let db' := set_conversations db
    (map (fun c => if Nat.eqb (conv_id c) cid
                   then mkConversation (conv_id c) c_completed (created_by c) (now db) (Some (now db))
                   else c) (conversations db)) in
  (getConversation db' cid, db').

(** *** db/messages.ts *)

Definition getMessage (db : DB) (mid : uuid) : option Message :=
  find (fun m => Nat.eqb (msg_id m) mid) (messages db).

Record CreateMessageInput := mkCreateMessageInput {
  i_conversation_id : uuid;
  i_sender : ClientId;
  i_target : ClientId;
  i_content : string;
  i_message_type : option MessageType;
  i_priority : option MessagePriority;
  i_response_to_id : option uuid;
}.

(** The [response_to_id REFERENCES messages(id)] foreign key
    ([foreign_keys = ON] in [openDb]): NULL or an existing message. *)
Definition response_ref_ok (db : DB) (input : CreateMessageInput) : bool :=
  match i_response_to_id input with
  | None => true
  | Some r => match getMessage db r with Some _ => true | None => false end
  end.

(** [createMessage]: the INSERT (refused by the [conversation_id] and
    [response_to_id] foreign keys when the conversation or the answered
    message is missing), then the [updated_at] bump of the conversation. *)
Definition createMessage (db : DB) (input : CreateMessageInput) : option (Message * DB) :=
  match getConversation db (i_conversation_id input) with
  | None => None
  | Some _ =>
      if negb (response_ref_ok db input) then None else
      let '(mid, db1) := fresh_uuid db in
      let m := mkMessage mid (i_conversation_id input) (i_sender input) (i_target input)
                 (i_content input) (default message (i_message_type input))
                 (default normal (i_priority input)) pending (i_response_to_id input)
                 (now db1) None None in
      let db2 := set_messages db1 (messages db1 ++ [m]) in
      let db3 := set_conversations db2
        (map (fun c => if Nat.eqb (conv_id c) (i_conversation_id input)
                       then mkConversation (conv_id c) (conv_status c) (created_by c) (now db2) (closed_at c)
                       else c) (conversations db2)) in
      Some (m, db3)
  end.

(** [updateMessageStatus]: [UPDATE messages SET status = ?] with
    [delivered_at] or [read_at] stamped for those two states. *)
Definition updateMessageStatus (db : DB) (mid : uuid) (st : MessageStatus) : DB :=
  set_messages db (map (fun m =>
    if Nat.eqb (msg_id m) mid then
      mkMessage (msg_id m) (conversation_id m) (sender m) (target m) (content m)
        (message_type m) (priority m) st (response_to_id m) (created_at m)
        (match st with delivered => Some (now db) | _ => delivered_at m end)
        (match st with read => Some (now db) | _ => read_at m end)
    else m) (messages db)).

(** [getResponseToMessage]: the earliest row with [response_to_id = ?];
    rows are kept in insertion order, which is [created_at] order. *)
Definition getResponseToMessage (db : DB) (mid : uuid) : option Message :=
  find (fun m => match response_to_id m with Some r => Nat.eqb r mid | None => false end)
       (messages db).

(** *** db/message_queue.ts *)

Record CreateQueuedMessageInput := mkQueueInput {
  qi_message_id : uuid;
  qi_target : ClientId;
  qi_priority : option Z;
  qi_max_attempts : option Z;
}.

(** [enqueueMessage]: the INSERT gives [attempts] and [next_attempt] their
    schema defaults; the UNIQUE([message_id]) and foreign-key constraints
    make it fail otherwise. *)
Definition enqueueMessage (db : DB) (input : CreateQueuedMessageInput)
  : option (QueuedMessage * DB) :=
  if existsb (fun q => Nat.eqb (message_id q) (qi_message_id input)) (message_queue db)
  then None else
  match getMessage db (qi_message_id input) with
  | None => None
  | Some _ =>
      let row := mkQueued (next_rowid db) (qi_message_id input) (qi_target input)
                   (default 0 (qi_priority input)) 0 (default 3 (qi_max_attempts input))
                   (now db) (now db) in
      Some (row, mkDB (clients db) (conversations db) (messages db)
                      (message_queue db ++ [row]) (S (next_rowid db)) (next_uuid db) (now db))
  end.

(** The WHERE clause of [dequeueMessages]. *)
Definition ready (db : DB) (t : ClientId) (q : QueuedMessage) : bool :=
  ClientId_eqb (q_target q) t && (next_attempt q <=? now db) && (attempts q <? max_attempts q).

(** ORDER BY [priority DESC, next_attempt ASC]. *)
Definition queue_order (a b : QueuedMessage) : Prop :=
  q_priority b < q_priority a \/
  (q_priority a = q_priority b /\ next_attempt a <= next_attempt b).

#[global] Instance queue_order_dec : RelDecision queue_order.
Proof. intros a b. unfold queue_order. apply _. Defined.

(** [dequeueMessages(db, target, limit)]: SELECT ... WHERE ... ORDER BY
    ... LIMIT; the sort is a merge sort of the selected rows. *)
Definition dequeueMessages (db : DB) (t : ClientId) (limit : nat) : list QueuedMessage :=
  take limit (merge_sort queue_order (filter (fun q => ready db t q = true) (message_queue db))).

(** [incrementAttempts(id, delaySeconds)]: [attempts + 1] and
    [next_attempt = now + delay]. *)
Definition incrementAttempts (db : DB) (qid : nat) (delaySeconds : Z) : DB :=
  set_queue db (map (fun q =>
    if Nat.eqb (q_id q) qid then
      mkQueued (q_id q) (message_id q) (q_target q) (q_priority q) (attempts q + 1)
        (max_attempts q) (now db + delaySeconds) (q_created_at q)
    else q) (message_queue db)).

Definition removeFromQueue (db : DB) (mid : uuid) : DB :=
  set_queue db (filter (fun q => negb (Nat.eqb (message_id q) mid) = true) (message_queue db)).

(** [clearExhaustedMessages]: [DELETE ... WHERE attempts >= max_attempts];
    returns the new database and [result.changes]. *)
Definition clearExhaustedMessages (db : DB) : DB * nat :=
  let keep := filter (fun q => negb (max_attempts q <=? attempts q) = true) (message_queue db) in
  (set_queue db keep, (length (message_queue db) - length keep)%nat).

(** [getQueuedMessage]: the row with [message_id = ?]. *)
Definition getQueuedMessage (db : DB) (mid : uuid) : option QueuedMessage :=
  find (fun q => Nat.eqb (message_id q) mid) (message_queue db).

(** [removeFromQueue] with its result [result.changes > 0]. *)
Definition removeFromQueueResult (db : DB) (mid : uuid) : DB * bool :=
  let db' := removeFromQueue db mid in
  (db', Nat.ltb 0 (length (message_queue db) - length (message_queue db'))).

(** [getQueueLength(db, target?)]: COUNT over the target's rows, or
    over the whole table. *)
Definition getQueueLength (db : DB) (t : option ClientId) : nat :=
  match t with
  | Some c => length (filter (fun q => ClientId_eqb (q_target q) c = true) (message_queue db))
  | None => length (message_queue db)
  end.

Record QueueStats := mkQueueStats {
  s_target : ClientId;
  s_pending : nat;
  s_ready : nat;
  s_exhausted : nat;
}.

(** One group of [getQueueStats]: [COUNT( * )] and the two [SUM(CASE ...)]
    columns over the rows of target [t]. *)
Definition queueStatsFor (db : DB) (t : ClientId) : QueueStats :=
  let rows := filter (fun q => ClientId_eqb (q_target q) t = true) (message_queue db) in
  mkQueueStats t (length rows)
    (length (filter (fun q => ((next_attempt q <=? now db) && (attempts q <? max_attempts q))%bool = true) rows))
    (length (filter (fun q => (max_attempts q <=? attempts q) = true) rows)).

(** [getQueueStats]: GROUP BY [target], one group for each target that
    has rows, in the order of the key ('claude' before 'codex'). *)
Definition getQueueStats (db : DB) : list QueueStats :=
  map (queueStatsFor db)
    (filter (fun t => negb (Nat.eqb (getQueueLength db (Some t)) 0) = true) [claude; codex]).

(** [setClientOffline]: [status = 'offline'] (the session id column is
    not modelled). *)
Definition setClientOffline (db : DB) (c : ClientId) : DB :=
  mkDB (fun c' => if ClientId_eqb c' c then offline else clients db c') (conversations db)
       (messages db) (message_queue db) (next_rowid db) (next_uuid db) (now db).

End Store.

(* ------------------------------------------------------------------ *)
(** ** The in-memory client registry and the queue processor *)
(* ------------------------------------------------------------------ *)

Module Registry.
Import Store.

(** [ClientRegistry]: [activeSessions : Map<ClientId, string>]. *)
Definition ClientRegistry := ClientId -> option string.

Definition emptyRegistry : ClientRegistry := fun _ => None.

Definition setOnline (r : ClientRegistry) (c : ClientId) (sid : string) : ClientRegistry :=
  fun c' => if ClientId_eqb c' c then Some sid else r c'.

Definition setOffline (r : ClientRegistry) (c : ClientId) : ClientRegistry :=
  fun c' => if ClientId_eqb c' c then None else r c'.

Definition isOnline (r : ClientRegistry) (c : ClientId) : bool :=
  match r c with Some _ => true | None => false end.

(** [getSessionId(clientId)]. *)
Definition getSessionId (r : ClientRegistry) (c : ClientId) : option string := r c.

(** [clear()]. *)
Definition clear (r : ClientRegistry) : ClientRegistry := emptyRegistry.

End Registry.

Module Queue.
Import Store.

Definition CLIENTS : list ClientId := [claude; codex].

Inductive DeliveryResult := r_delivered | r_retry | r_removed.

(** [scheduleRetry]: [delay = min(30 * 2^attempts, 3600)], then
    [incrementAttempts(item.id, delay)]. *)
Definition retryDelay (attempts : Z) : Z := Z.min (30 * 2 ^ attempts) 3600.

Definition scheduleRetry (db : DB) (item : QueuedMessage) : DB :=
  incrementAttempts db (q_id item) (retryDelay (attempts item)).

(** [attemptDelivery(target, item)]. *)
Definition attemptDelivery (db : DB) (t : ClientId) (item : QueuedMessage)
  : DB * DeliveryResult :=
  match getMessage db (message_id item) with
  | None => (removeFromQueue db (message_id item), r_removed)
  | Some m =>
      if negb (isClientOnline db t) then (scheduleRetry db item, r_retry)
      else (removeFromQueue (updateMessageStatus db (msg_id m) delivered) (message_id item),
            r_delivered)
  end.

(** The [for ... await this.attemptDelivery(...)] loop.  [env i] is what
    other tasks do to the database while the [i]-th [await] is
    suspended. *)
Fixpoint deliverAll (env : nat -> DB -> DB) (i : nat) (db : DB) (t : ClientId)
    (items : list QueuedMessage) : DB * list (QueuedMessage * DeliveryResult) :=
  match items with
  | [] => (db, [])
  | item :: rest =>
      let '(db1, r) := attemptDelivery db t item in
      let '(db2, rs) := deliverAll env (S i) (env i db1) t rest in
      (db2, (item, r) :: rs)
  end.

(** [processQueueForTarget(target)]: the database afterwards and each
    dequeued row with its outcome. *)
Definition processQueueForTarget (env : nat -> DB -> DB) (db : DB) (t : ClientId)
  : DB * list (QueuedMessage * DeliveryResult) :=
  if negb (isClientOnline db t) then (db, []) else
  let queued := dequeueMessages db t 10 in
  deliverAll env 0 db t queued.

(** [processQueue]: [processQueueForTarget] for each of [CLIENTS]. *)
Definition processQueue (env : nat -> DB -> DB) (db : DB)
  : DB * list (QueuedMessage * DeliveryResult) :=
  fold_left (fun acc t =>
    let '(db1, rs) := acc in
    let '(db2, rs2) := processQueueForTarget env db1 t in (db2, rs ++ rs2))
    CLIENTS (db, []).

(** The five-minute sweep: [clearExhaustedMessages(this.db)]. *)
Definition sweep (db : DB) : DB := fst (clearExhaustedMessages db).

End Queue.

(* ------------------------------------------------------------------ *)
(** ** Agent personas *)
(* ------------------------------------------------------------------ *)

Module Agents.

Inductive AgentName := architect | oracle.

(** [AGENT_PERSONAS]: a persona is identified by its name here; the
    static instruction texts play no role in selection. *)
Record AgentPersona := mkPersona { name : AgentName }.

Definition ARCHITECT : AgentPersona := mkPersona architect.
Definition ORACLE : AgentPersona := mkPersona oracle.

Definition AGENT_PERSONAS (n : AgentName) : AgentPersona :=
  match n with architect => ARCHITECT | oracle => ORACLE end.

Definition DEFAULT_AGENT : AgentName := architect.

(** [getAgent(name)]: every [AgentName] is a key of [AGENT_PERSONAS];
    [undefined] gives the default. *)
Definition getAgent (n : option AgentName) : AgentPersona :=
  match n with
  | Some a => AGENT_PERSONAS a
  | None => AGENT_PERSONAS DEFAULT_AGENT
  end.

(** [String.prototype.toLowerCase] on ASCII characters. *)
Definition lower_char (c : Ascii.ascii) : Ascii.ascii :=
  let n := Ascii.nat_of_ascii c in
  if (Nat.leb 65 n && Nat.leb n 90)%bool then Ascii.ascii_of_nat (n + 32) else c.

Fixpoint toLowerCase (s : string) : string :=
  match s with
  | EmptyString => EmptyString
  | String c rest => String (lower_char c) (toLowerCase rest)
  end.

(** [String.prototype.includes]. *)
Fixpoint includes (hay needle : string) : bool :=
  String.prefix needle hay ||
  match hay with
  | EmptyString => false
  | String _ rest => includes rest needle
  end.

Definition oracleTriggers : list string :=
  ["why"; "debug"; "investigate"; "root cause"; "understand"; "explain";
   "failing"; "broken"; "not working"; "error"; "bug"].

(** The [for (const trigger of oracleTriggers)] loop with its early return. *)
Fixpoint scanTriggers (lower : string) (ts : list string) : AgentPersona :=
  match ts with
  | [] => ARCHITECT
  | t :: rest => if includes lower t then ORACLE else scanTriggers lower rest
  end.

Definition selectAgent (content : string) : AgentPersona :=
  scanTriggers (toLowerCase content) oracleTriggers.

End Agents.

(* ------------------------------------------------------------------ *)
(** ** The message dispatcher and the tool handlers *)
(* ------------------------------------------------------------------ *)

Module Dispatcher.
Import Store Agents.

Definition ClientId_to_string (c : ClientId) : string :=
  match c with claude => "claude" | codex => "codex" end.

Definition nl2 : string :=
  String (Ascii.ascii_of_nat 10) (String (Ascii.ascii_of_nat 10) EmptyString).

(** [getConversationMessages(db, id, {limit})]: ORDER BY [created_at] ASC. *)
Definition getConversationMessages (db : DB) (cid : uuid) (limit : nat) : list Message :=
  take limit (filter (fun m => Nat.eqb (conversation_id m) cid = true) (messages db)).

(** [getConversationMessages(db, id, {limit, offset})]: LIMIT ? OFFSET ?. *)
Definition getConversationMessagesAt (db : DB) (cid : uuid) (limit offset : nat) : list Message :=
  take limit (drop offset (filter (fun m => Nat.eqb (conversation_id m) cid = true) (messages db))).

(** [buildConversationContext]. *)
Definition buildConversationContext (db : DB) (cid : uuid) : string :=
  match getConversationMessages db cid 20 with
  | [] => ""
  | ms => String.concat nl2 (map (fun m =>
            "[" +:+ ClientId_to_string (sender m) +:+ "]: " +:+ content m) ms)
  end.

(** JavaScript truthiness of a [string | null | undefined]. *)
Definition truthy (s : option string) : bool :=
  match s with Some v => negb (String.eqb v "") | None => false end.

(** What [invokeCodexExec] reports back. *)
Record InvocationResult := mkInvocationResult {
  inv_success : bool;
  inv_response : option string;
  inv_stderr : string;
}.

(** The collaborators of the dispatcher: the registry, the
    [codexMcpEnabled] flag, the value of [result.response] from
    [CodexMcpClient.sendMessage(prompt, messageId, persona)] ([None] for
    a null result or a thrown error), and [invokeCodexExec]. *)
Record DispatchEnv := mkDispatchEnv {
  registry : Registry.ClientRegistry;
  codexMcpEnabled : bool;
  mcpSend : string -> uuid -> AgentPersona -> option string;
  execInvoke : Message -> string -> InvocationResult;
}.

Record SendMessageOpts := mkSendMessageOpts {
  conversationId : option uuid;
  o_sender : ClientId;
  o_target : ClientId;
  o_content : string;
  messageType : option MessageType;
  o_priority : option MessagePriority;
  waitForResponse : bool;
  agent : option AgentName;
}.

Record SendMessageResult := mkSendMessageResult {
  r_message : Message;
  r_conversation : Conversation;
  r_response : option Message;
  invoked : bool;
  invokedViaMcp : bool;
  invocationError : option string;
  selectedAgent : option AgentName;
}.

(** [tryCodexMcpServer]. *)
Definition tryCodexMcpServer (env : DispatchEnv) (c ctx : string) (mid : uuid)
    (persona : AgentPersona) : option string :=
  if negb (codexMcpEnabled env) then None else
  let prompt := if String.eqb ctx "" then c
                else "Previous conversation:" +:+ String (Ascii.ascii_of_nat 10) ctx
                       +:+ nl2 +:+ "New message:" +:+ String (Ascii.ascii_of_nat 10) c in
  let r := mcpSend env prompt mid persona in
  if truthy r then r else None.

Definition getResponseType (t : option MessageType) : MessageType :=
  match t with
  | Some research_request => research_response
  | Some review_request => review_response
  | _ => message
  end.

(** [priorityMap = { urgent: 2, high: 1, normal: 0 }]. *)
Definition priorityMap (p : MessagePriority) : Z :=
  match p with urgent => 2 | high => 1 | normal => 0 end.

(** The persona of the offline-codex branch:
    [opts.agent ? getAgent(opts.agent) : selectAgent(opts.content)]. *)
Definition choosePersona (o : SendMessageOpts) : AgentPersona :=
  match agent o with
  | Some a => getAgent (Some a)
  | None => selectAgent (o_content o)
  end.

(** The response message of both codex tiers. *)
Definition responseInput (o : SendMessageOpts) (conv : Conversation) (m : Message)
    (text : string) : CreateMessageInput :=
  mkCreateMessageInput (conv_id conv) (o_target o) (o_sender o) text
    (Some (getResponseType (messageType o))) None (Some (msg_id m)).

(** Step 1 of [sendMessage]: get or create the conversation; [None] is
    the thrown [Conversation not found]. *)
Definition resolveConversation (db : DB) (o : SendMessageOpts) : option (Conversation * DB) :=
  match conversationId o with
  | Some cid =>
      match getConversation db cid with
      | None => None
      | Some c => Some (c, db)
      end
  | None => Some (createConversation db (o_sender o))
  end.

(** Steps 3 and 4 of [sendMessage]: the routing decision.  The result
    record is returned before the wait for a response. *)
Definition route (env : DispatchEnv) (db : DB) (o : SendMessageOpts)
    (conv : Conversation) (m : Message) : option (DB * SendMessageResult) :=
  let base := mkSendMessageResult m conv None false false None None in
  if Registry.isOnline (registry env) (o_target o) then
    Some (updateMessageStatus db (msg_id m) delivered, base)
  else if ClientId_eqb (o_target o) codex then
    let ctx := buildConversationContext db (conv_id conv) in
    let persona := choosePersona o in
    match tryCodexMcpServer env (o_content o) ctx (msg_id m) persona with
    | Some text =>
        match createMessage db (responseInput o conv m text) with
        | None => None
        | Some (rm, db1) =>
            Some (updateMessageStatus db1 (msg_id m) responded,
                  mkSendMessageResult m conv (Some rm) true true None (Some (name persona)))
        end
    | None =>
        let ir := execInvoke env m ctx in
        let err := if (negb (inv_success ir) && negb (truthy (inv_response ir)))%bool
                   then Some (if String.eqb (inv_stderr ir) "" then "Invocation failed with no output"
                              else inv_stderr ir)
                   else None in
        match inv_response ir with
        | Some text =>
            if truthy (Some text) then
              match createMessage db (responseInput o conv m text) with
              | None => None
              | Some (rm, db1) =>
                  Some (updateMessageStatus db1 (msg_id m) responded,
                        mkSendMessageResult m conv (Some rm) true false err (Some (name persona)))
              end
            else Some (db, mkSendMessageResult m conv None true false err (Some (name persona)))
        | None => Some (db, mkSendMessageResult m conv None true false err (Some (name persona)))
        end
    end
  else
    match enqueueMessage db (mkQueueInput (msg_id m) (o_target o)
                               (Some (priorityMap (default normal (o_priority o)))) (Some 5)) with
    | None => None
    | Some (_, db1) => Some (db1, base)
    end.

(** [sendMessage].  The wait of step 5 only reads the store
    ([getResponseToMessage]); here it reads it once. *)
Definition sendMessage (env : DispatchEnv) (db : DB) (o : SendMessageOpts)
  : option (DB * SendMessageResult) :=
  match resolveConversation db o with
  | None => None
  | Some (conv, db1) =>
      match createMessage db1 (mkCreateMessageInput (conv_id conv) (o_sender o) (o_target o)
                                 (o_content o) (messageType o) (o_priority o) None) with
      | None => None
      | Some (m, db2) =>
          match route env db2 o conv m with
          | None => None
          | Some (db3, res) =>
              if (waitForResponse o && bool_decide (r_response res = None))%bool then
                match getResponseToMessage db3 (msg_id m) with
                | Some r =>
                    Some (db3, mkSendMessageResult (r_message res) (r_conversation res) (Some r)
                                 (invoked res) (invokedViaMcp res) (invocationError res)
                                 (selectedAgent res))
                | None => Some (db3, res)
                end
              else Some (db3, res)
          end
      end
  end.

(** Tool results: the JSON text of [{content:[{type:"text", text}]}]
    reduced to success or the error string. *)
Inductive ToolResult := tool_ok | tool_error (msg : string).

(** The [mark_message_read] tool handler; [clientId] is [getClientId()]. *)
Definition mark_message_read (clientId : option ClientId) (db : DB) (mid : uuid)
  : DB * ToolResult :=
  match clientId with
  | None => (db, tool_error "Unknown client")
  | Some c =>
      match getMessage db mid with
      | None => (db, tool_error "Message not found")
      | Some m =>
          if negb (ClientId_eqb (target m) c)
          then (db, tool_error "Cannot mark message as read: not the target")
          else (updateMessageStatus db mid read, tool_ok)
      end
  end.

(** The arguments of the [send_message] tool after zod's validation and
    defaults ([priority] 'normal', [wait_for_response] true). *)
Record SendMessageInput := mkSendMessageInput {
  in_conversation_id : option uuid;
  in_target : ClientId;
  in_content : string;
  in_priority : MessagePriority;
  in_wait_for_response : bool;
  in_agent : option AgentName;
}.

(** What the [send_message] tool answers: the fields of its JSON text,
    a guard's error, or the [catch] of a thrown error. *)
Inductive SendToolResult :=
  | send_ok (conversation_id message_id : uuid) (status : MessageStatus) (invoked : bool)
      (selected_agent : option AgentName) (response_id : option uuid)
  | send_error (error : string)
  | send_thrown.

(** The [send_message] tool handler; [clientId] is [getClientId()].  The
    only error [sendMessage] throws here is [Conversation not found],
    raised before any write. *)
Definition send_message_tool (clientId : option ClientId) (env : DispatchEnv) (db : DB)
    (input : SendMessageInput) : DB * SendToolResult :=
  match clientId with
  | None => (db, send_error "Unknown client")
  | Some sender =>
      if ClientId_eqb (in_target input) sender then (db, send_error "Cannot send message to self")
      else
        match sendMessage env db (mkSendMessageOpts (in_conversation_id input) sender
                (in_target input) (in_content input) None (Some (in_priority input))
                (in_wait_for_response input) (in_agent input)) with
        | None => (db, send_thrown)
        | Some (db', r) =>
            (db', send_ok (conv_id (r_conversation r)) (msg_id (r_message r)) (status (r_message r))
                    (invoked r) (selectedAgent r) (option_map msg_id (r_response r)))
        end
  end.

End Dispatcher.

(* ------------------------------------------------------------------ *)
(** ** The persistent codex client: response extraction *)
(* ------------------------------------------------------------------ *)

Module CodexClient.

#[local] Set Warnings "-register-all".

(** JavaScript values as they arrive from [callTool]. *)
Inductive JSValue :=
  | JUndefined
  | JNull
  | JBool (b : bool)
  | JNum (n : Z)
  | JStr (s : string)
  | JArr (vs : list JSValue)
  | JObj (fields : list (string * JSValue)).

(** Property access [o[k]]: the first binding, or [undefined]. *)
Definition get (fields : list (string * JSValue)) (k : string) : JSValue :=
  match find (fun kv => String.eqb (fst kv) k) fields with
  | Some kv => snd kv
  | None => JUndefined
  end.

Definition has (fields : list (string * JSValue)) (k : string) : bool :=
  existsb (fun kv => String.eqb (fst kv) k) fields.

Definition js_truthy (v : JSValue) : bool :=
  match v with
  | JUndefined | JNull => false
  | JBool b => b
  | JNum n => negb (Z.eqb n 0)
  | JStr s => negb (String.eqb s "")
  | JArr _ | JObj _ => true
  end.

(** [String(v)] for the values a text field carries: strings, numbers,
    booleans, null; other values print as an object. *)
Definition js_String (v : JSValue) : string :=
  match v with
  | JUndefined => "undefined"
  | JNull => "null"
  | JBool true => "true"
  | JBool false => "false"
  | JNum n => pretty n
  | JStr s => s
  | JArr _ | JObj _ => "[object Object]"
  end.

Section Extract.

(** [JSON.parse], a builtin of the runtime: [None] when it throws. *)
Variable JSON_parse : string -> option JSValue.

(** The [for (const item of r.content)] loop. *)
Fixpoint firstTextItem (items : list JSValue) : option string :=
  match items with
  | [] => None
  | JObj f :: rest =>
      if (has f "type" && match get f "type" with JStr t => String.eqb t "text" | _ => false end && has f "text")%bool
      then Some (js_String (get f "text"))
      else firstTextItem rest
  | _ :: rest => firstTextItem rest
  end.

(** [extractResponse(result)]. *)
Definition extractResponse (result : JSValue) : option string :=
  match result with
  | JObj r =>
      let fromContent :=
        match get r "content" with
        | JArr items => firstTextItem items
        | _ => None
        end in
      match fromContent with
      | Some s => Some s
      | None =>
          let legacy :=
            if (has r "toolResult" && js_truthy (get r "toolResult"))%bool then
              match get r "toolResult" with
              | JStr s => Some s
              | JObj tr => if has tr "response" then Some (js_String (get tr "response")) else None
              | _ => None
              end
            else None in
          match legacy with
          | Some s => Some s
          | None =>
              match get r "content" with
              | JArr (JObj i0 :: _) =>
                  if js_truthy (get i0 "text") then
                    match JSON_parse (js_String (get i0 "text")) with
                    | None => Some (js_String (get i0 "text"))
                    | Some (JObj parsed) =>
                        if js_truthy (get parsed "response")
                        then Some (js_String (get parsed "response")) else None
                    | Some _ => None
                    end
                  else None
              | _ => None
              end
          end
      end
  | JArr _ => None
  | _ => None
  end.

End Extract.

End CodexClient.

(* ------------------------------------------------------------------ *)
(** ** The HTTP session lifecycle (mcp/http.ts) *)
(* ------------------------------------------------------------------ *)

Module Http.
Import Store.

(** The state the [/mcp] routes share: the [sessions] map (session id
    to the identified client), the registry and the database. *)
Record Server := mkServer {
  srv_sessions : gmap string (option ClientId);
  srv_registry : Registry.ClientRegistry;
  srv_db : DB;
}.

(** [onsessioninitialized(sid)]: record the session; for an identified
    client, registry first, then [updateClientStatus(..., 'online')],
    then the drain of [onClientOnline] ([env] as in
    [Queue.processQueueForTarget]). *)
Definition onsessioninitialized (env : nat -> DB -> DB) (srv : Server) (sid : string)
    (cid : option ClientId) : Server :=
  let ss := <[sid := cid]> (srv_sessions srv) in
  match cid with
  | None => mkServer ss (srv_registry srv) (srv_db srv)
  | Some c =>
      let reg := Registry.setOnline (srv_registry srv) c sid in
      let db1 := updateClientStatus (srv_db srv) c online in
      mkServer ss reg (fst (Queue.processQueueForTarget env db1 c))
  end.

(** [transport.onclose] with [sid = transport.sessionId]; [if (sid)]
    skips an undefined or empty session id. *)
Definition onclose (srv : Server) (sid : option string) : Server :=
  match sid with
  | None => srv
  | Some s =>
      if String.eqb s "" then srv else
      match srv_sessions srv !! s with
      | Some (Some c) =>
          mkServer (delete s (srv_sessions srv)) (Registry.setOffline (srv_registry srv) c)
                   (setClientOffline (srv_db srv) c)
      | _ => mkServer (delete s (srv_sessions srv)) (srv_registry srv) (srv_db srv)
      end
  end.

End Http.

(* ------------------------------------------------------------------ *)
(** ** Request filtering and client identification *)
(* ------------------------------------------------------------------ *)

Module Security.

(** [isLoopback(addr)]. *)
Definition isLoopback (addr : option string) : bool :=
  match addr with
  | None => false
  | Some a => (String.eqb a "127.0.0.1" || String.eqb a "::1" || String.prefix "::ffff:127.0.0.1" a)%bool
  end.

(** The [allowedHosts] set of [installSecurity({port})]. *)
Definition allowedHosts (port : N) : list string :=
  ["127.0.0.1:" +:+ pretty port; "localhost:" +:+ pretty port; "[::1]:" +:+ pretty port].

Record Request := mkRequest {
  req_ip : option string;
  req_host : option string;
  req_url : string;
  req_origin : option string;
}.

(** The [preHandler] hook: [Some (code, error)] for a reply sent,
    [None] when the request goes on to its route. *)
Definition preHandler (port : N) (req : Request) : option (Z * string) :=
  if negb (isLoopback (req_ip req)) then Some (403, "loopback_only") else
  match req_host req with
  | None => Some (403, "invalid_host")
  | Some h =>
      if negb (existsb (String.eqb h) (allowedHosts port)) then Some (403, "invalid_host") else
      if String.prefix "/mcp" (req_url req) then
        match req_origin req with
        | Some o => if String.eqb o "" then None else Some (403, "origin_not_allowed_for_mcp")
        | None => None
        end
      else None
  end.

End Security.

Module Identity.
Import Store Agents.

Record ClientRequest := mkClientRequest {
  x_client_id : option string;
  user_agent : option string;
  query_client : option string;
}.

Definition clientOfName (s : option string) : option ClientId :=
  match s with
  | Some v => if String.eqb v "claude" then Some claude
              else if String.eqb v "codex" then Some codex else None
  | None => None
  end.

(** [identifyClient(req)]: the [x-client-id] header, then the
    [User-Agent] patterns, then the [client] query parameter. *)
Definition identifyClient (r : ClientRequest) : option ClientId :=
  match clientOfName (x_client_id r) with
  | Some c => Some c
  | None =>
      let ua := default "" (user_agent r) in
      if (includes ua "claude-code" || includes ua "Claude")%bool then Some claude
      else if (includes ua "codex" || includes ua "Codex")%bool then Some codex
      else clientOfName (query_client r)
  end.

(** [getOtherClient]. *)
Definition getOtherClient (c : ClientId) : ClientId :=
  match c with claude => codex | codex => claude end.

End Identity.

(* ------------------------------------------------------------------ *)
(** ** The stdout fallback of [invokeCodexExec] *)
(* ------------------------------------------------------------------ *)

Module Invoker.
Import Dispatcher.

Definition MAX_RESPONSE_SIZE : nat := 50000.

Definition truncationNote : string := nl2 +:+ "[Response truncated - exceeded 50KB]".

(** [if (!response && result.stdout) response = ...]: the raw stdout,
    cut to [MAX_RESPONSE_SIZE] characters with a note, when extraction
    gave nothing. *)
Definition fallbackResponse (extracted : option string) (stdout : string) : option string :=
  if (negb (truthy extracted) && negb (String.eqb stdout ""))%bool then
    Some (if Nat.ltb MAX_RESPONSE_SIZE (String.length stdout)
          then String.substring 0 MAX_RESPONSE_SIZE stdout +:+ truncationNote
          else stdout)
  else extracted.

End Invoker.

(* ------------------------------------------------------------------ *)
(** ** Concrete states *)
(* ------------------------------------------------------------------ *)

Module Samples.
Import Store Dispatcher Agents.

(** Three events stored 1s apart on stream ["s"], with a 1.5s TTL. *)
Definition es3 : EventStore.InMemoryEventStore :=
  let st0 := EventStore.mkStore ∅ 1500 5000 in
  let st1 := fst (EventStore.storeEvent 0 st0 "s" "m1") in
  let st2 := fst (EventStore.storeEvent 1000 st1 "s" "m2") in
  fst (EventStore.storeEvent 2000 st2 "s" "m3").

(** A fresh database: both clients offline, empty tables. *)
Definition db0 : DB := mkDB (fun _ => offline) [] [] [] 1%nat 0%nat 1000.

(** After a restart: the persisted [clients.status] of claude still says
    online while the new process's registry is empty. *)
Definition dbStale : DB := updateClientStatus db0 claude online.

(** One pending message from codex to claude, not yet queued. *)
Definition dbOneMsg : DB :=
  set_messages db0 [mkMessage 0%nat 0%nat codex claude "ping" message normal pending None 1000 None None].

(** One conversation (uuid 0) opened by codex, no messages. *)
Definition dbConv : DB := snd (createConversation db0 codex).

(** [dbConv] after codex asks claude in conversation 0 (message uuid 1). *)
Definition dbAsked : DB :=
  match createMessage dbConv (mkCreateMessageInput 0%nat codex claude "ping" None None None) with
  | Some (_, d) => d
  | None => dbConv
  end.

(** A server where Claude has two open sessions, [s2] being the newer. *)
Definition srvTwo : Http.Server :=
  Http.mkServer (<["s1" := Some claude]> (<["s2" := Some claude]> ∅))
    (Registry.setOnline Registry.emptyRegistry claude "s2") (updateClientStatus db0 claude online).

(** A freshly started server. *)
Definition srvEmpty : Http.Server := Http.mkServer ∅ Registry.emptyRegistry db0.

Definition noEnv : nat -> DB -> DB := fun _ d => d.

(** No codex peer answers, neither over MCP nor by exec. *)
Definition silentPeer (reg : Registry.ClientRegistry) : DispatchEnv :=
  mkDispatchEnv reg true (fun _ _ _ => None) (fun _ _ => mkInvocationResult false None "").

(** The persistent peer answers every prompt with ["answer"]. *)
Definition answeringPeer (reg : Registry.ClientRegistry) : DispatchEnv :=
  mkDispatchEnv reg true (fun _ _ _ => Some "answer") (fun _ _ => mkInvocationResult false None "").

Definition codexOnly : Registry.ClientRegistry :=
  Registry.setOnline Registry.emptyRegistry codex "S2".

Definition pingClaude : SendMessageOpts :=
  mkSendMessageOpts None codex claude "ping" None (Some high) true None.

Definition askCodex (cid : option uuid) (c : string) : SendMessageOpts :=
  mkSendMessageOpts cid claude codex c None None false None.

End Samples.

(* ------------------------------------------------------------------ *)
(** ** Notions used by the statements *)
(* ------------------------------------------------------------------ *)

Module Spec.
Import Store CodexClient.

(** The order [pending -> delivered -> read -> responded]. *)
Definition statusRank (s : MessageStatus) : nat :=
  match s with pending => 0 | delivered => 1 | read => 2 | responded => 3 end.

(** [needle] occurs as a substring of [hay]. *)
Definition occurs (needle hay : string) : Prop :=
  exists p q, hay = p +:+ (needle +:+ q).

(** Ids handed out by [randomUUID()] are fresh: every message id and
    every queued message id was drawn before the current counter. *)
Definition fresh_ids (db : DB) : Prop :=
  Forall (fun m => (msg_id m < next_uuid db)%nat) (messages db) /\
  Forall (fun q => (message_id q < next_uuid db)%nat) (message_queue db).

#[global] Instance MessageStatus_eq_dec : EqDecision MessageStatus.
Proof. solve_decision. Defined.

(** The registry and the [clients.status] column agree on who is online. *)
Definition status_in_sync (srv : Http.Server) : Prop :=
  forall c, Registry.isOnline (Http.srv_registry srv) c = isClientOnline (Http.srv_db srv) c.

Definition dq : string := String (Ascii.ascii_of_nat 34) EmptyString.

(** The text [{"response":"hi"}]. *)
Definition jsonResponseText : string :=
  "{" +:+ dq +:+ "response" +:+ dq +:+ ":" +:+ dq +:+ "hi" +:+ dq +:+ "}".

(** A [tools/call] result whose single text item carries that JSON. *)
Definition jsonToolResult : JSValue :=
  JObj [("content", JArr [JObj [("type", JStr "text"); ("text", JStr jsonResponseText)]])].

End Spec.

(* ================================================================== *)
(** * Theorems *)
(* ================================================================== *)

Import Store Dispatcher Agents Samples Spec.

(** C1 (defect).  After a TTL prune that drops the oldest event the
    index is not rebuilt: the size check sees as many index entries as
    events, so the surviving ids keep their old positions.  Replaying
    after ["s:2"], which sits at position 0 with ["s:3"] after it, sends
    nothing although the stream id is returned. *)
Lemma replay_after_ttl_prune_skips_events :
  let '(st', sent, sid) := EventStore.replayEventsAfter 2000 es3 "s:2" in
  option_map (fun s => map EventStore.id (EventStore.events s))
             (EventStore.streams st' !! "s") = Some ["s:2"; "s:3"] /\
  option_map (fun s => EventStore.indexById s !! "s:2")
             (EventStore.streams st' !! "s") = Some (Some 1%nat) /\
  sent = [] /\ sid = "s".
Proof. vm_compute. repeat split. Qed.

(** C2 (counterexample).  The drain consults the store's
    [clients.status], not the registry: after a restart the store still
    says claude is online while the registry has no session for it, and
    a message queued for claude is dequeued and marked delivered. *)
Lemma drain_delivers_without_registry_session :
  match sendMessage (silentPeer codexOnly) dbStale pingClaude with
  | Some (d, r) =>
      Registry.isOnline codexOnly claude = false /\
      snd (Queue.processQueueForTarget noEnv d claude) <> [] /\
      option_map status (getMessage (fst (Queue.processQueueForTarget noEnv d claude))
                                    (msg_id (r_message r))) = Some delivered
  | None => False
  end.
Proof. vm_compute. split; [reflexivity | split; [discriminate | reflexivity]]. Qed.

(** C3 (counterexample).  A message answered by the codex peer is
    [responded]; its target (codex) may still call [mark_message_read],
    which succeeds and moves the status back to [read]. *)
Lemma mark_read_moves_responded_back :
  match sendMessage (answeringPeer Registry.emptyRegistry) db0
                    (askCodex None "Why is X failing?") with
  | Some (d, r) =>
      option_map status (getMessage d (msg_id (r_message r))) = Some responded /\
      snd (mark_message_read (Some codex) d (msg_id (r_message r))) = tool_ok /\
      option_map status (getMessage (fst (mark_message_read (Some codex) d (msg_id (r_message r))))
                                    (msg_id (r_message r))) = Some read /\
      (statusRank read < statusRank responded)%nat
  | None => False
  end.
Proof. vm_compute. repeat split. lia. Qed.

(** C4 (counterexample).  After [closeConversation] the conversation is
    [completed], and [send_message] with its id still inserts a message
    into it. *)
Lemma send_into_completed_conversation :
  let '(c, d1) := createConversation db0 claude in
  let d2 := snd (closeConversation d1 (conv_id c)) in
  option_map conv_status (getConversation d2 (conv_id c)) = Some c_completed /\
  match sendMessage (silentPeer codexOnly) d2 (askCodex (Some (conv_id c)) "hello") with
  | Some (d3, r) =>
      conversation_id (r_message r) = conv_id c /\
      getMessage d3 (msg_id (r_message r)) <> None /\
      conv_status (r_conversation r) = c_completed
  | None => False
  end.
Proof. vm_compute. split; [reflexivity | split; [reflexivity | split; [discriminate | reflexivity]]]. Qed.

(** C6 (counterexample).  [scheduleRetry] sets [next_attempt] from the
    current time, not from the previous [next_attempt]: a row due at 0
    and retried at time 100 with no earlier attempt is moved to 130, not
    to 0 + 30. *)
Lemma schedule_retry_counts_from_now :
  let item := mkQueued 1%nat 0%nat claude 0 0 5 0 0 in
  let db := mkDB (fun _ => online) [] [] [item] 2%nat 1%nat 100 in
  map next_attempt (message_queue (Queue.scheduleRetry db item)) = [130] /\
  130 <> next_attempt item + Z.min (30 * 2 ^ attempts item) 3600.
Proof. vm_compute. split; [reflexivity | discriminate]. Qed.

(** C8 (defect).  When the first text item of [content] holds the JSON
    text [{"response":"hi"}], [extractResponse] returns that text
    verbatim whatever [JSON.parse] does: the loop over [content] returns
    before the JSON branch is reached. *)
Lemma extract_response_returns_raw_json :
  forall JSON_parse : string -> option CodexClient.JSValue,
    CodexClient.extractResponse JSON_parse jsonToolResult = Some jsonResponseText /\
    jsonResponseText <> "hi".
Proof. intros JSON_parse. split; [reflexivity | discriminate]. Qed.

(** *** The queue store *)

Lemma ClientId_eqb_true (a b : ClientId) : ClientId_eqb a b = true <-> a = b.
Proof. destruct a, b; simpl; split; congruence. Qed.

#[local] Instance queue_order_trans : Transitive queue_order.
Proof. intros a b c; unfold queue_order; lia. Qed.

#[local] Instance queue_order_total : Total queue_order.
Proof. intros a b; unfold queue_order; lia. Qed.

Lemma ready_spec (db : DB) (t : ClientId) (q : QueuedMessage) :
  ready db t q = true <->
  q_target q = t /\ next_attempt q <= now db /\ attempts q < max_attempts q.
Proof.
  unfold ready. rewrite !andb_true_iff, ClientId_eqb_true, Z.leb_le, Z.ltb_lt.
  tauto.
Qed.

(** C10.  [enqueueMessage] stores [max_attempts] as given, and 3 when the
    field is omitted; a row gets 5 only when the caller passed 5.  The row
    is appended to the queue with [attempts = 0]. *)
Theorem enqueueMessage_max_attempts_default (db db' : DB)
    (input : CreateQueuedMessageInput) (row : QueuedMessage) :
  enqueueMessage db input = Some (row, db') ->
  max_attempts row = default 3 (qi_max_attempts input) /\
  (qi_max_attempts input = None -> max_attempts row = 3) /\
  (max_attempts row = 5 -> qi_max_attempts input = Some 5) /\
  attempts row = 0 /\
  message_queue db' = message_queue db ++ [row].
Proof.
  unfold enqueueMessage.
  destruct (existsb _ _); [discriminate|].
  destruct (getMessage _ _); [|discriminate].
  intros H; injection H as <- <-; simpl.
  destruct (qi_max_attempts input) as [ma|]; simpl;
    repeat split; intros; subst; try congruence; lia.
Qed.

Lemma enqueueMessage_max_attempts_default_witness :
  exists row db', enqueueMessage dbOneMsg (mkQueueInput 0%nat claude None None) = Some (row, db') /\
                  max_attempts row = 3.
Proof.
  destruct (enqueueMessage dbOneMsg _) as [[row db']|] eqn:E;
    [|vm_compute in E; discriminate].
  exists row, db'. split; [reflexivity|].
  apply (proj1 (proj2 (enqueueMessage_max_attempts_default _ _ _ _ E))).
  reflexivity.
Defined.

(** C7.  [dequeueMessages db t limit] returns at most [limit] rows, each a
    row of the queue for [t] that is due ([next_attempt <= now]) and not
    exhausted ([attempts < max_attempts]), sorted by priority descending
    then [next_attempt] ascending; together with the rows left out they
    are exactly the matching rows, every returned row precedes every row
    left out in that order, and nothing is left out when fewer than
    [limit] rows are returned. *)
Theorem dequeueMessages_spec (db : DB) (t : ClientId) (limit : nat) :
  let r := dequeueMessages db t limit in
  (length r <= limit)%nat /\
  (forall q, q ∈ r ->
     q ∈ message_queue db /\ q_target q = t /\ next_attempt q <= now db /\
     attempts q < max_attempts q) /\
  StronglySorted queue_order r /\
  exists rest,
    r ++ rest ≡ₚ filter (fun q => ready db t q = true) (message_queue db) /\
    (forall x y, x ∈ r -> y ∈ rest -> queue_order x y) /\
    ((length r < limit)%nat -> rest = []).
Proof.
  cbv zeta. unfold dequeueMessages.
  set (sel := filter (fun q => ready db t q = true) (message_queue db)).
  set (srt := merge_sort queue_order sel).
  assert (Hperm : srt ≡ₚ sel) by apply merge_sort_Permutation.
  assert (Hsort : StronglySorted queue_order srt)
    by (apply StronglySorted_merge_sort; [exact queue_order_trans | exact queue_order_total]).
  rewrite <- (take_drop limit srt) in Hsort.
  split; [rewrite length_take; lia|].
  split.
  { intros q Hq.
    apply elem_of_take in Hq as [i [Hi _]].
    assert (Hs : q ∈ sel) by (rewrite <- Hperm; by eapply list_elem_of_lookup_2).
    unfold sel in Hs. apply list_elem_of_filter in Hs as [Hr Hin].
    apply ready_spec in Hr. tauto. }
  split; [eapply StronglySorted_app_1_l; exact Hsort|].
  exists (drop limit srt). split; [by rewrite take_drop|].
  split; [intros x y Hx Hy; eapply StronglySorted_app_1_elem_of; eauto|].
  intros Hlt. rewrite length_take in Hlt. apply drop_ge. lia.
Qed.

Lemma length_filter_split {A} (P : A -> bool) (l : list A) :
  (length (filter (fun x => P x = true) l) +
   length (filter (fun x => negb (P x) = true) l))%nat = length l.
Proof.
  induction l as [|x l IH]; [reflexivity|].
  rewrite !filter_cons. destruct (P x); simpl; lia.
Qed.

(** C6 (amended).  [scheduleRetry] rewrites exactly the rows with the
    item's id: [attempts] grows by one and [next_attempt] becomes the
    current time plus [min(30 * 2^n, 3600)] seconds, [n] being the
    item's attempt count; other rows are untouched.  The sweep's
    [clearExhaustedMessages] keeps exactly the rows with
    [attempts < max_attempts] and reports the number of rows with
    [attempts >= max_attempts] as deleted. *)
Theorem scheduleRetry_sets_next_attempt_and_sweep (db : DB) (item : QueuedMessage) :
  length (message_queue (Queue.scheduleRetry db item)) = length (message_queue db) /\
  (forall i q, message_queue db !! i = Some q ->
     message_queue (Queue.scheduleRetry db item) !! i =
       Some (if Nat.eqb (q_id q) (q_id item)
             then mkQueued (q_id q) (message_id q) (q_target q) (q_priority q)
                    (attempts q + 1) (max_attempts q)
                    (now db + Z.min (30 * 2 ^ attempts item) 3600) (q_created_at q)
             else q)) /\
  (forall q, q ∈ message_queue (fst (clearExhaustedMessages db)) <->
             q ∈ message_queue db /\ attempts q < max_attempts q) /\
  snd (clearExhaustedMessages db) =
    length (filter (fun q => (max_attempts q <=? attempts q) = true) (message_queue db)).
Proof.
  split; [simpl; apply length_map|].
  split.
  { intros i q Hq. simpl. rewrite list_lookup_fmap, Hq. reflexivity. }
  split.
  { intros q. simpl. rewrite list_elem_of_filter, negb_true_iff, Z.leb_gt. tauto. }
  simpl.
  pose proof (length_filter_split (fun q => max_attempts q <=? attempts q) (message_queue db)) as Hs.
  cbv beta in Hs. lia.
Qed.

(** The delays of the first attempts: 30s, 60s, 120s, and the one-hour
    ceiling from the eighth attempt on. *)
Lemma retryDelay_values :
  map Queue.retryDelay [0; 1; 2; 3; 6; 7; 20] = [30; 60; 120; 240; 1920; 3600; 3600].
Proof. reflexivity. Qed.

(** *** The queue processor *)



(** *** Message status updates *)

Lemma find_map_same {A} (p : A -> bool) (f : A -> A) (l : list A) :
  (forall x, p (f x) = p x) -> find p (map f l) = option_map f (find p l).
Proof.
  intros Hf. induction l as [|x l IH]; [reflexivity|].
  simpl. rewrite Hf. destruct (p x); [reflexivity|exact IH].
Qed.

Lemma getMessage_updateMessageStatus (db : DB) (mid : uuid) (st : MessageStatus) (m : Message) :
  getMessage db mid = Some m ->
  exists m', getMessage (updateMessageStatus db mid st) mid = Some m' /\
             msg_id m' = mid /\ status m' = st /\ target m' = target m /\
             (st = read -> read_at m' = Some (now db)).
Proof.
  intros Hm. unfold getMessage, updateMessageStatus in *. simpl.
  rewrite find_map_same.
  - rewrite Hm. simpl. apply find_some in Hm as [_ Hid].
    apply Nat.eqb_eq in Hid. rewrite Hid, Nat.eqb_refl.
    eexists; repeat split; try reflexivity. intros ->. reflexivity.
  - intros x. simpl. destruct (Nat.eqb (msg_id x) mid) eqn:E; simpl; rewrite ?E; reflexivity.
Qed.

(** C3 (amended).  [mark_message_read] succeeds only for the message's
    target, and then the message is [read] with [read_at] stamped to the
    current time; conversely it succeeds for the target whatever the
    message's current status, [responded] included: no update of the
    status is guarded by the order of states. *)
Theorem mark_message_read_target_only (c : option ClientId) (db : DB) (mid : uuid) :
  (forall db', mark_message_read c db mid = (db', tool_ok) ->
     exists m m', getMessage db mid = Some m /\ c = Some (target m) /\
       getMessage db' mid = Some m' /\ status m' = read /\ read_at m' = Some (now db)) /\
  (forall m, getMessage db mid = Some m -> c = Some (target m) ->
     snd (mark_message_read c db mid) = tool_ok).
Proof.
  split.
  - intros db'. unfold mark_message_read.
    destruct c as [cl|]; [|discriminate].
    destruct (getMessage db mid) as [m|] eqn:Hm; [|discriminate].
    destruct (ClientId_eqb (target m) cl) eqn:Ht; simpl; [|discriminate].
    intros H. injection H as <-.
    apply ClientId_eqb_true in Ht.
    destruct (getMessage_updateMessageStatus db mid read m Hm) as (m' & H1 & _ & H2 & _ & H3).
    exists m, m'. subst. repeat split; auto.
  - intros m Hm ->. unfold mark_message_read. rewrite Hm.
    destruct (target m); reflexivity.
Qed.

(** *** The dispatcher *)

Lemma find_app {A} (p : A -> bool) (l1 l2 : list A) :
  find p (l1 ++ l2) = match find p l1 with Some x => Some x | None => find p l2 end.
Proof. induction l1 as [|x l1 IH]; simpl; [reflexivity|]. destruct (p x); auto. Qed.

Lemma find_fresh_message (n : nat) (l : list Message) :
  Forall (fun m => (msg_id m < n)%nat) l -> find (fun m => Nat.eqb (msg_id m) n) l = None.
Proof.
  induction 1 as [|m l Hm _ IH]; simpl; [reflexivity|].
  destruct (Nat.eqb_spec (msg_id m) n); [lia|exact IH].
Qed.

Lemma existsb_fresh_queue (n : nat) (l : list QueuedMessage) :
  Forall (fun q => (message_id q < n)%nat) l ->
  existsb (fun q => Nat.eqb (message_id q) n) l = false.
Proof.
  induction 1 as [|q l Hq _ IH]; simpl; [reflexivity|].
  destruct (Nat.eqb_spec (message_id q) n); [lia|exact IH].
Qed.

Lemma getConversation_id (db : DB) (cid : uuid) (c : Conversation) :
  getConversation db cid = Some c -> conv_id c = cid.
Proof. unfold getConversation. intros H. apply find_some in H as [_ H]. by apply Nat.eqb_eq. Qed.

(** [createMessage] succeeds on an existing conversation, whatever its
    status, when [response_to_id] is NULL or names a stored message,
    and appends a [pending] message with the next uuid. *)
Lemma createMessage_ok (db : DB) (i : CreateMessageInput) (c : Conversation) :
  getConversation db (i_conversation_id i) = Some c ->
  response_ref_ok db i = true ->
  let m := mkMessage (next_uuid db) (i_conversation_id i) (i_sender i) (i_target i)
             (i_content i) (default message (i_message_type i))
             (default normal (i_priority i)) pending (i_response_to_id i) (now db) None None in
  exists db',
    createMessage db i = Some (m, db') /\
    messages db' = messages db ++ [m] /\
    message_queue db' = message_queue db /\
    next_uuid db' = S (next_uuid db) /\
    option_map conv_status (getConversation db' (i_conversation_id i)) = Some (conv_status c).
Proof.
  intros Hc Hr. cbv zeta. unfold createMessage. rewrite Hc, Hr. simpl.
  eexists. split; [reflexivity|]. simpl. repeat split.
  unfold getConversation. simpl. rewrite find_map_same.
  - unfold getConversation in Hc. rewrite Hc. simpl.
    destruct (Nat.eqb (conv_id c) (i_conversation_id i)); reflexivity.
  - intros x. destruct (Nat.eqb (conv_id x) (i_conversation_id i)) eqn:E; simpl; rewrite ?E; reflexivity.
Qed.

Lemma resolveConversation_ok (db : DB) (o : SendMessageOpts) :
  match conversationId o with Some cid => getConversation db cid <> None | None => True end ->
  exists c db1 c',
    resolveConversation db o = Some (c, db1) /\
    getConversation db1 (conv_id c) = Some c' /\
    messages db1 = messages db /\ message_queue db1 = message_queue db /\
    (next_uuid db <= next_uuid db1)%nat.
Proof.
  unfold resolveConversation. destruct (conversationId o) as [cid|].
  - destruct (getConversation db cid) as [c|] eqn:Hc; [|congruence].
    intros _. exists c, db, c. repeat split; try reflexivity.
    by rewrite (getConversation_id _ _ _ Hc).
  - intros _. unfold createConversation, fresh_uuid. simpl.
    set (c := mkConversation (next_uuid db) c_active (o_sender o) (now db) None).
    destruct (find (fun x => Nat.eqb (conv_id x) (next_uuid db)) (conversations db))
      as [c'|] eqn:Hf.
    + eexists c, _, c'. split; [reflexivity|].
      unfold getConversation. simpl. rewrite find_app, Hf.
      repeat split; simpl; try reflexivity. lia.
    + eexists c, _, c. split; [reflexivity|].
      unfold getConversation. simpl. rewrite find_app, Hf. simpl. rewrite Nat.eqb_refl.
      repeat split; simpl; try reflexivity. lia.
Qed.

(** C4 (amended).  [send_message] checks a supplied conversation for
    existence only: a missing one makes the call fail; an existing one
    is used whatever its status, and [createMessage] (used for the
    message and for the response messages) inserts into any existing
    conversation, leaving its status unchanged, whenever its
    [response_to_id] is NULL or names a stored message; a conversation created
    by the call is [active]. *)
Theorem sendMessage_conversation_status_unchecked (db : DB) (o : SendMessageOpts) :
  (forall cid env, conversationId o = Some cid -> getConversation db cid = None ->
     sendMessage env db o = None) /\
  (forall cid c, conversationId o = Some cid -> getConversation db cid = Some c ->
     resolveConversation db o = Some (c, db)) /\
  (forall i c, getConversation db (i_conversation_id i) = Some c -> response_ref_ok db i = true ->
     exists m db2, createMessage db i = Some (m, db2) /\
       conversation_id m = i_conversation_id i /\ status m = pending /\
       option_map conv_status (getConversation db2 (i_conversation_id i)) = Some (conv_status c)) /\
  (conversationId o = None ->
     exists c db1, resolveConversation db o = Some (c, db1) /\ conv_status c = c_active).
Proof.
  split; [intros cid env Ho Hc; unfold sendMessage, resolveConversation; rewrite Ho, Hc; reflexivity|].
  split; [intros cid c Ho Hc; unfold resolveConversation; rewrite Ho, Hc; reflexivity|].
  split.
  - intros i c Hc Hr. destruct (createMessage_ok db i c Hc Hr) as (db' & H1 & _ & _ & _ & H2).
    eexists _, db'. split; [exact H1|]. simpl. repeat split. exact H2.
  - intros Ho. unfold resolveConversation. rewrite Ho.
    eexists _, _. split; [reflexivity|]. reflexivity.
Qed.

(** C5.  With claude offline in the registry, [sendMessage] to claude
    appends exactly one queue row for the new message, with the priority
    of its label (urgent 2, high 1, normal 0), [attempts = 0] and
    [max_attempts = 5], and the message stays [pending]. *)
Theorem sendMessage_enqueues_offline_claude (env : DispatchEnv) (db : DB) (o : SendMessageOpts) :
  o_target o = claude ->
  Registry.isOnline (registry env) claude = false ->
  fresh_ids db ->
  match conversationId o with Some cid => getConversation db cid <> None | None => True end ->
  exists db' res row,
    sendMessage env db o = Some (db', res) /\
    message_queue db' = message_queue db ++ [row] /\
    message_id row = msg_id (r_message res) /\ q_target row = claude /\
    q_priority row = priorityMap (default normal (o_priority o)) /\
    attempts row = 0 /\ max_attempts row = 5 /\
    option_map status (getMessage db' (msg_id (r_message res))) = Some pending.
Proof.
  intros Ht Hoff [Hfm Hfq] Hconv.
  destruct (resolveConversation_ok db o Hconv)
    as (c & db1 & c' & Hres & Hc' & Hm1 & Hq1 & Hn1).
  set (i := mkCreateMessageInput (conv_id c) (o_sender o) (o_target o) (o_content o)
              (messageType o) (o_priority o) None).
  destruct (createMessage_ok db1 i c' Hc' eq_refl) as (db2 & Hcm & Hm2 & Hq2 & Hn2 & _).
  set (m := mkMessage (next_uuid db1) (i_conversation_id i) (i_sender i) (i_target i)
              (i_content i) (default message (i_message_type i))
              (default normal (i_priority i)) pending (i_response_to_id i) (now db1) None None)
    in Hcm, Hm2.
  assert (Hget : getMessage db2 (msg_id m) = Some m).
  { assert (Hfm1 : Forall (fun x => (msg_id x < next_uuid db1)%nat) (messages db)).
    { eapply Forall_impl; [exact Hfm|]. intros x Hx. simpl in Hx. lia. }
    unfold getMessage. rewrite Hm2, Hm1, find_app.
    simpl. rewrite (find_fresh_message _ _ Hfm1). simpl. rewrite Nat.eqb_refl. reflexivity. }
  assert (Hex : existsb (fun q => Nat.eqb (message_id q) (msg_id m)) (message_queue db2) = false).
  { rewrite Hq2, Hq1. apply existsb_fresh_queue.
    eapply Forall_impl; [exact Hfq|]. intros q Hq. unfold m; simpl in *. lia. }
  set (row := mkQueued (next_rowid db2) (msg_id m) claude
                (priorityMap (default normal (o_priority o))) 0 5 (now db2) (now db2)).
  set (db3 := mkDB (clients db2) (conversations db2) (messages db2)
                (message_queue db2 ++ [row]) (S (next_rowid db2)) (next_uuid db2) (now db2)).
  set (base := mkSendMessageResult m c None false false None None).
  assert (Hroute : route env db2 o c m = Some (db3, base)).
  { unfold route. rewrite Ht, Hoff. simpl.
    unfold enqueueMessage. simpl.
    unfold m in Hex, Hget; cbn [msg_id] in Hex, Hget. rewrite Hex, Hget. reflexivity. }
  assert (Hget3 : getMessage db3 (msg_id m) = Some m) by exact Hget.
  unfold sendMessage. rewrite Hres. fold i. rewrite Hcm, Hroute.
  destruct (getResponseToMessage db3 (msg_id m)); destruct (waitForResponse o); simpl;
    do 3 eexists; (split; [reflexivity|]); simpl;
    (split; [rewrite Hq2, Hq1; reflexivity|]);
    repeat split; try reflexivity; cbn [msg_id m] in Hget3; rewrite Hget3; reflexivity.
Qed.

Lemma sendMessage_enqueues_offline_claude_witness :
  exists db' res row,
    sendMessage (silentPeer codexOnly) db0 pingClaude = Some (db', res) /\
    message_queue db' = message_queue db0 ++ [row] /\
    message_id row = msg_id (r_message res) /\ q_target row = claude /\
    q_priority row = priorityMap (default normal (o_priority pingClaude)) /\
    attempts row = 0 /\ max_attempts row = 5 /\
    option_map status (getMessage db' (msg_id (r_message res))) = Some pending.
Proof.
  apply sendMessage_enqueues_offline_claude.
  - reflexivity.
  - reflexivity.
  - split; constructor.
  - exact I.
Defined.

Lemma prefix_spec (s1 s2 : string) :
  String.prefix s1 s2 = true <-> exists q, s2 = s1 +:+ q.
Proof.
  revert s2. induction s1 as [|a s1 IH]; intros s2; simpl.
  - split; [intros _; exists s2; reflexivity | destruct s2; reflexivity].
  - destruct s2 as [|b s2].
    + split; [discriminate | intros [q Hq]; discriminate].
    + simpl. destruct (Ascii.ascii_dec a b) as [<-|Hab].
      * rewrite IH. split; intros [q Hq]; exists q; [rewrite Hq | injection Hq as Hq]; auto.
      * split; [discriminate | intros [q Hq]; injection Hq as Hq _; congruence].
Qed.

Lemma includes_spec (hay needle : string) :
  includes hay needle = true <-> occurs needle hay.
Proof.
  unfold occurs. induction hay as [|c rest IH]; cbn [includes].
  - rewrite orb_false_r, prefix_spec. split.
    + intros [q Hq]. exists EmptyString, q. exact Hq.
    + intros [p [q Hpq]]. destruct p; [|discriminate]. exists q. exact Hpq.
  - rewrite orb_true_iff, prefix_spec, IH. split.
    + intros [[q Hq] | [p [q Hpq]]].
      * exists EmptyString, q. exact Hq.
      * exists (String c p), q. simpl. rewrite Hpq. reflexivity.
    + intros [p [q Hpq]]. destruct p as [|c' p].
      * left. exists q. exact Hpq.
      * right. injection Hpq as _ Hpq. exists p, q. exact Hpq.
Qed.

Lemma scanTriggers_cases (l : string) (ts : list string) :
  (scanTriggers l ts = ORACLE /\ exists t, In t ts /\ includes l t = true) \/
  (scanTriggers l ts = ARCHITECT /\ forall t, In t ts -> includes l t = false).
Proof.
  induction ts as [|t ts IH]; simpl.
  - right. split; [reflexivity | intros ? []].
  - destruct (includes l t) eqn:E.
    + left. split; [reflexivity | exists t; auto].
    + destruct IH as [[H1 [t' [Hin Ht']]] | [H1 H2]].
      * left. split; [exact H1 | exists t'; auto].
      * right. split; [exact H1|]. intros t' [<-|Hin]; auto.
Qed.

Lemma route_codex_selectedAgent (env : DispatchEnv) (db db' : DB) (o : SendMessageOpts)
    (conv : Conversation) (m : Message) (res : SendMessageResult) :
  o_target o = codex ->
  Registry.isOnline (registry env) codex = false ->
  route env db o conv m = Some (db', res) ->
  selectedAgent res = Some (name (choosePersona o)).
Proof.
  intros Ht Hoff H. unfold route in H. rewrite Ht, Hoff in H. cbn [ClientId_eqb] in H.
  repeat case_match; simplify_eq; reflexivity.
Qed.

Lemma sendMessage_route (env : DispatchEnv) (db db' : DB) (o : SendMessageOpts)
    (res : SendMessageResult) :
  sendMessage env db o = Some (db', res) ->
  exists conv m db2 r0, route env db2 o conv m = Some (db', r0) /\
    selectedAgent res = selectedAgent r0.
Proof.
  intros H. unfold sendMessage in H.
  repeat case_match; simplify_eq; do 4 eexists; (split; [eassumption | reflexivity]).
Qed.

(** C9.  When codex is the target and is offline in the registry, the
    persona reported by [sendMessage] is the one given by [agent] when
    present; otherwise it is oracle exactly when one of [oracleTriggers]
    occurs as a substring of the lowercased content, and architect when
    none does. *)
Theorem sendMessage_persona_selection (env : DispatchEnv) (db db' : DB) (o : SendMessageOpts)
    (res : SendMessageResult) :
  o_target o = codex ->
  Registry.isOnline (registry env) codex = false ->
  sendMessage env db o = Some (db', res) ->
  match agent o with
  | Some a => selectedAgent res = Some a
  | None =>
      (selectedAgent res = Some oracle <->
         exists t, In t oracleTriggers /\ occurs t (toLowerCase (o_content o))) /\
      ((~ exists t, In t oracleTriggers /\ occurs t (toLowerCase (o_content o))) ->
         selectedAgent res = Some architect)
  end.
Proof.
  intros Ht Hoff H.
  destruct (sendMessage_route env db db' o res H) as (conv & m & db2 & r0 & Hr & Hs).
  rewrite Hs, (route_codex_selectedAgent env db2 db' o conv m r0 Ht Hoff Hr).
  unfold choosePersona. destruct (agent o) as [a|].
  - destruct a; reflexivity.
  - unfold selectAgent.
    destruct (scanTriggers_cases (toLowerCase (o_content o)) oracleTriggers)
      as [[-> [t [Hin Hinc]]] | [-> Hno]]; simpl.
    + split; [|intros Hn; exfalso; apply Hn; exists t; split; [exact Hin | apply includes_spec; exact Hinc]].
      split; [intros _; exists t; split; [exact Hin | apply includes_spec; exact Hinc] | reflexivity].
    + split; [|reflexivity].
      split; [discriminate|]. intros [t [Hin Hocc]].
      apply includes_spec in Hocc. rewrite (Hno t Hin) in Hocc. discriminate.
Qed.

Lemma sendMessage_persona_selection_witness :
  match sendMessage (answeringPeer Registry.emptyRegistry) db0 (askCodex None "Why is X failing?") with
  | Some (d, r) =>
      (selectedAgent r = Some oracle <->
         exists t, In t oracleTriggers /\ occurs t (toLowerCase "Why is X failing?")) /\
      ((~ exists t, In t oracleTriggers /\ occurs t (toLowerCase "Why is X failing?")) ->
         selectedAgent r = Some architect)
  | None => False
  end.
Proof.
  destruct (sendMessage (answeringPeer Registry.emptyRegistry) db0 (askCodex None "Why is X failing?"))
    as [[d r]|] eqn:E.
  - exact (sendMessage_persona_selection (answeringPeer Registry.emptyRegistry) db0 d
             (askCodex None "Why is X failing?") r eq_refl eq_refl E).
  - vm_compute in E. discriminate.
Defined.

(* ================================================================== *)
(** * Further properties of the code *)
(* ================================================================== *)

(** *** The queue table *)

Lemma existsb_find_None {A} (p : A -> bool) (l : list A) :
  existsb p l = false -> find p l = None.
Proof.
  induction l as [|x l IH]; simpl; [reflexivity|].
  destruct (p x); simpl; [discriminate | exact IH].
Qed.

(** [enqueueMessage] then [getQueuedMessage]: the new row is found by
    its message id, the id had no row before, a second [enqueueMessage]
    of the same message is refused by UNIQUE([message_id]), and the rows
    of other messages are found as before. *)
Theorem enqueueMessage_getQueuedMessage (db db' : DB) (input : CreateQueuedMessageInput)
    (row : QueuedMessage) :
  enqueueMessage db input = Some (row, db') ->
  getQueuedMessage db (qi_message_id input) = None /\
  getQueuedMessage db' (qi_message_id input) = Some row /\
  message_id row = qi_message_id input /\
  enqueueMessage db' input = None /\
  (forall mid, mid <> qi_message_id input -> getQueuedMessage db' mid = getQueuedMessage db mid).
Proof.
  unfold enqueueMessage.
  destruct (existsb _ _) eqn:E; [discriminate|].
  destruct (getMessage _ _) eqn:G; [|discriminate].
  intros H; injection H as <- <-.
  pose proof (existsb_find_None _ _ E) as Hn.
  unfold getQueuedMessage; simpl.
  split; [exact Hn|].
  split; [rewrite find_app, Hn; simpl; rewrite Nat.eqb_refl; reflexivity|].
  split; [reflexivity|].
  split.
  - rewrite existsb_app. simpl. rewrite Nat.eqb_refl, orb_true_r. reflexivity.
  - intros mid Hmid. rewrite find_app.
    destruct (find (fun q => Nat.eqb (message_id q) mid) (message_queue db)); [reflexivity|].
    simpl. destruct (Nat.eqb_spec (qi_message_id input) mid); [congruence | reflexivity].
Qed.

Lemma enqueueMessage_getQueuedMessage_witness :
  exists row db',
    enqueueMessage dbOneMsg (mkQueueInput 0%nat claude (Some 1) (Some 5)) = Some (row, db') /\
    getQueuedMessage db' 0%nat = Some row.
Proof.
  destruct (enqueueMessage dbOneMsg (mkQueueInput 0%nat claude (Some 1) (Some 5)))
    as [[row db']|] eqn:E; [|discriminate].
  exists row, db'. split; [reflexivity|].
  exact (proj1 (proj2 (enqueueMessage_getQueuedMessage _ _ _ _ E))).
Defined.

(** [removeFromQueue] answers [true] exactly when the message had a row;
    afterwards it has none, and every other message's row is found as
    before. *)
Theorem removeFromQueue_result (db : DB) (mid : uuid) :
  snd (removeFromQueueResult db mid) = true <-> getQueuedMessage db mid <> None.
Proof.
  unfold removeFromQueueResult, getQueuedMessage, removeFromQueue. simpl.
  rewrite Nat.ltb_lt.
  induction (message_queue db) as [|q l IH]; simpl.
  - split; [intros H; inversion H | intros H; exfalso; exact (H eq_refl)].
  - pose proof (length_filter (fun q => negb (Nat.eqb (message_id q) mid) = true) l).
    rewrite filter_cons. case_decide as Hd;
      destruct (Nat.eqb (message_id q) mid); simpl in *; try discriminate;
      try (exfalso; congruence).
    + rewrite <- IH. lia.
    + split; [congruence|]. intros _. lia.
Qed.

Lemma filter_target_codex (l : list QueuedMessage) :
  filter (fun q => negb (ClientId_eqb (q_target q) claude) = true) l =
  filter (fun q => ClientId_eqb (q_target q) codex = true) l.
Proof. apply list_filter_iff. intros q. destruct (q_target q); simpl; tauto. Qed.

(** The per-target counts of [getQueueLength] add up to the count with
    no target: every row is for Claude or for Codex. *)
Theorem getQueueLength_targets (db : DB) :
  (getQueueLength db (Some claude) + getQueueLength db (Some codex))%nat = getQueueLength db None.
Proof.
  unfold getQueueLength. rewrite <- filter_target_codex.
  exact (length_filter_split (fun q => ClientId_eqb (q_target q) claude) (message_queue db)).
Qed.

Lemma length_filter_disjoint {A} (P Q : A -> bool) (l : list A) :
  (forall x, P x = true -> Q x = false) ->
  (length (filter (fun x => P x = true) l) + length (filter (fun x => Q x = true) l) <= length l)%nat.
Proof.
  intros Hd. induction l as [|x l IH]; [simpl; lia|].
  rewrite !filter_cons. specialize (Hd x).
  destruct (P x), (Q x); simpl; repeat case_decide; simpl; try discriminate;
    try (specialize (Hd eq_refl); discriminate); lia.
Qed.

Lemma filter_ready_rows (db : DB) (t : ClientId) :
  filter (fun q => ((next_attempt q <=? now db) && (attempts q <? max_attempts q))%bool = true)
    (filter (fun q => ClientId_eqb (q_target q) t = true) (message_queue db)) =
  filter (fun q => ready db t q = true) (message_queue db).
Proof.
  rewrite list_filter_filter. apply list_filter_iff. intros q.
  unfold ready. rewrite !andb_true_iff. tauto.
Qed.

(** [getQueueStats] per target: [ready] counts exactly the rows
    [dequeueMessages] may return, so a dequeue with a limit returns
    [min limit ready] rows; no row is both ready and exhausted, so
    [ready + exhausted <= pending]. *)
Theorem queueStatsFor_counts (db : DB) (t : ClientId) (limit : nat) :
  let s := queueStatsFor db t in
  s_pending s = getQueueLength db (Some t) /\
  length (dequeueMessages db t limit) = Nat.min limit (s_ready s) /\
  (s_ready s + s_exhausted s <= s_pending s)%nat.
Proof.
  cbv zeta. unfold queueStatsFor; cbn [s_pending s_ready s_exhausted].
  split; [reflexivity|].
  split.
  - unfold dequeueMessages. rewrite length_take, filter_ready_rows.
    f_equal. apply Permutation_length. apply merge_sort_Permutation.
  - apply length_filter_disjoint. intros q. rewrite andb_true_iff, Z.ltb_lt, Z.leb_gt. lia.
Qed.

(** [getQueueStats] lists a target exactly when it has rows, each entry
    is that target's counts, and the [pending] counts add up to the whole
    queue. *)
Theorem getQueueStats_entries (db : DB) :
  (forall t, In t (map s_target (getQueueStats db)) <-> getQueueLength db (Some t) <> 0%nat) /\
  (forall e, In e (getQueueStats db) -> e = queueStatsFor db (s_target e)) /\
  sum_list (map s_pending (getQueueStats db)) = getQueueLength db None.
Proof.
  rewrite <- getQueueLength_targets.
  unfold getQueueStats. rewrite !filter_cons, filter_nil.
  pose proof (Nat.eqb_spec (getQueueLength db (Some claude)) 0) as Ha.
  pose proof (Nat.eqb_spec (getQueueLength db (Some codex)) 0) as Hb.
  destruct Ha as [Ha|Ha], Hb as [Hb|Hb]; simpl;
    repeat (case_decide; simpl in *; try discriminate; try congruence);
    (split; [intros [|]; simpl; intuition congruence|]);
    (split; [intros e; intuition (subst; reflexivity)|]);
    unfold queueStatsFor; simpl; unfold getQueueLength in *; lia.
Qed.

(** The sweep only deletes rows [dequeueMessages] would never return,
    and a second sweep right after deletes nothing. *)
Theorem sweep_keeps_ready (db : DB) (t : ClientId) (limit : nat) :
  dequeueMessages (Queue.sweep db) t limit = dequeueMessages db t limit /\
  snd (clearExhaustedMessages (Queue.sweep db)) = 0%nat.
Proof.
  unfold Queue.sweep, clearExhaustedMessages, dequeueMessages. simpl.
  split.
  - f_equal. f_equal. apply list_filter_filter_l.
    intros q Hq. apply ready_spec in Hq. rewrite negb_true_iff, Z.leb_gt. lia.
  - rewrite list_filter_filter_l; [lia | tauto].
Qed.

(** A row that [scheduleRetry] has just rescheduled is not returned by a
    [dequeueMessages] at the same time, as long as its attempt count is
    not negative (a negative count gives [2 ** attempts] below 1 and a
    delay of 0 seconds). *)
Theorem scheduleRetry_not_ready (db : DB) (item : QueuedMessage) (t : ClientId) (limit : nat) :
  0 <= attempts item ->
  forall q, In q (dequeueMessages (Queue.scheduleRetry db item) t limit) -> q_id q <> q_id item.
Proof.
  intros Ha q Hin Hid.
  unfold dequeueMessages in Hin. apply list_elem_of_In, elem_of_take in Hin as [i [Hi _]].
  apply list_elem_of_lookup_2 in Hi.
  rewrite (merge_sort_Permutation _ _) in Hi.
  apply list_elem_of_filter in Hi as [Hr Hq].
  apply ready_spec in Hr as [_ [Hn _]].
  unfold Queue.scheduleRetry, incrementAttempts in Hq, Hn. simpl in Hq, Hn.
  apply list_elem_of_fmap in Hq as [q0 [-> _]].
  destruct (Nat.eqb_spec (q_id q0) (q_id item)) as [E|E]; simpl in Hn, Hid; [|congruence].
  unfold Queue.retryDelay in Hn.
  pose proof (Z.pow_pos_nonneg 2 (attempts item) ltac:(lia) Ha).
  lia.
Qed.

Lemma scheduleRetry_not_ready_witness :
  dequeueMessages (set_queue dbStale [mkQueued 0%nat 0%nat claude 0 0 3 0 0]) claude 10 =
    [mkQueued 0%nat 0%nat claude 0 0 3 0 0] /\
  ~ In (mkQueued 0%nat 0%nat claude 0 1 3 1030 0)
      (dequeueMessages (Queue.scheduleRetry (set_queue dbStale [mkQueued 0%nat 0%nat claude 0 0 3 0 0])
                          (mkQueued 0%nat 0%nat claude 0 0 3 0 0)) claude 10).
Proof.
  split; [vm_compute; reflexivity|].
  intros Hin.
  exact (scheduleRetry_not_ready (set_queue dbStale [mkQueued 0%nat 0%nat claude 0 0 3 0 0])
           (mkQueued 0%nat 0%nat claude 0 0 3 0 0) claude 10 ltac:(simpl; lia) _ Hin eq_refl).
Defined.

(** *** The messages table *)

Lemma set_messages_same (db : DB) : set_messages db (messages db) = db.
Proof. by destruct db. Qed.

Lemma set_conversations_same (db : DB) : set_conversations db (conversations db) = db.
Proof. by destruct db. Qed.

Lemma map_id_no_hit {A} (p : A -> bool) (f : A -> A) (l : list A) :
  find p l = None -> map (fun x => if p x then f x else x) l = l.
Proof.
  induction l as [|x l IH]; simpl; [reflexivity|].
  destruct (p x); [discriminate|]. intros H. by rewrite IH.
Qed.

(** [createMessage] then [getMessage]: on a missing conversation, or
    with a [response_to_id] naming no stored message, nothing is
    inserted; otherwise the returned row is found under its new id,
    which no row had before, with type [message], priority [normal] and
    status [pending] when not given, and every other id reads as before.
    Row ids stay below the uuid supply. *)
Theorem createMessage_getMessage (db : DB) (i : CreateMessageInput) :
  Forall (fun m => (msg_id m < next_uuid db)%nat) (messages db) ->
  (getConversation db (i_conversation_id i) = None -> createMessage db i = None) /\
  (forall r, i_response_to_id i = Some r -> getMessage db r = None -> createMessage db i = None) /\
  (forall c, getConversation db (i_conversation_id i) = Some c -> response_ref_ok db i = true ->
   exists m db',
     createMessage db i = Some (m, db') /\
     getMessage db (msg_id m) = None /\
     getMessage db' (msg_id m) = Some m /\
     message_type m = default message (i_message_type i) /\
     priority m = default normal (i_priority i) /\
     status m = pending /\ response_to_id m = i_response_to_id i /\
     delivered_at m = None /\ read_at m = None /\
     (forall mid, mid <> msg_id m -> getMessage db' mid = getMessage db mid) /\
     Forall (fun m => (msg_id m < next_uuid db')%nat) (messages db')).
Proof.
  intros Hf. split; [|split].
  { unfold createMessage. intros ->. reflexivity. }
  { intros r Hr Hn. unfold createMessage, response_ref_ok. rewrite Hr, Hn.
    destruct (getConversation db (i_conversation_id i)); reflexivity. }
  intros c Hc Hr. destruct (createMessage_ok db i c Hc Hr) as [db' (Hcr & Hm & _ & Hn & _)].
  eexists _, db'. split; [exact Hcr|]. cbn [msg_id].
  split; [exact (find_fresh_message _ _ Hf)|].
  unfold getMessage. rewrite Hm, find_app, (find_fresh_message _ _ Hf). simpl.
  rewrite Nat.eqb_refl.
  do 7 (split; [reflexivity|]).
  split.
  - intros mid Hmid. rewrite find_app. case_match; [reflexivity|].
    simpl. destruct (Nat.eqb_spec (next_uuid db) mid); [congruence|reflexivity].
  - rewrite Hn. apply Forall_app. split.
    + eapply Forall_impl; [exact Hf|]. simpl. lia.
    + constructor; [simpl; lia | constructor].
Qed.

Lemma createMessage_getMessage_witness :
  createMessage dbAsked (mkCreateMessageInput 0%nat claude codex "pong" None None (Some 5%nat)) = None /\
  exists m db', createMessage dbAsked (mkCreateMessageInput 0%nat claude codex "pong" None None (Some 1%nat))
                  = Some (m, db') /\ getMessage db' (msg_id m) = Some m /\ getMessage dbAsked (msg_id m) = None.
Proof.
  destruct (createMessage_getMessage dbAsked (mkCreateMessageInput 0%nat claude codex "pong" None None (Some 1%nat))
              ltac:(vm_compute; repeat constructor)) as (_ & _ & H).
  destruct (H _ (eq_refl : getConversation dbAsked 0%nat = Some _) eq_refl)
    as (m & db' & Hc & Hn & Hg & _).
  split.
  - exact (proj1 (proj2 (createMessage_getMessage dbAsked
             (mkCreateMessageInput 0%nat claude codex "pong" None None (Some 5%nat))
             ltac:(vm_compute; repeat constructor))) 5%nat eq_refl eq_refl).
  - exists m, db'. split; [exact Hc | split; [exact Hg | exact Hn]].
Defined.

(** [updateMessageStatus] on a missing id changes nothing; on an existing
    id it sets the status, stamps [delivered_at] for [delivered] and
    [read_at] for [read] with the current time, leaves both stamps as they
    were for the other states, keeps every other column, and leaves the
    rows of other ids as they were. *)
Theorem updateMessageStatus_stamps (db : DB) (mid : uuid) (st : MessageStatus) :
  (getMessage db mid = None -> updateMessageStatus db mid st = db) /\
  (forall m, getMessage db mid = Some m ->
     exists m', getMessage (updateMessageStatus db mid st) mid = Some m' /\
       status m' = st /\
       delivered_at m' = (if decide (st = delivered) then Some (now db) else delivered_at m) /\
       read_at m' = (if decide (st = read) then Some (now db) else read_at m) /\
       content m' = content m /\ sender m' = sender m /\ target m' = target m /\
       conversation_id m' = conversation_id m /\ response_to_id m' = response_to_id m /\
       created_at m' = created_at m) /\
  (forall mid', mid' <> mid -> getMessage (updateMessageStatus db mid st) mid' = getMessage db mid').
Proof.
  split; [|split].
  - intros Hn. unfold updateMessageStatus. unfold getMessage in Hn.
    rewrite (map_id_no_hit _ _ _ Hn). apply set_messages_same.
  - intros m Hm. unfold getMessage, updateMessageStatus in *. simpl.
    rewrite find_map_same.
    + rewrite Hm. simpl. apply find_some in Hm as [_ Hid].
      rewrite Hid. eexists; split; [reflexivity|]. simpl.
      destruct st; simpl; repeat split; reflexivity.
    + intros x. destruct (Nat.eqb (msg_id x) mid) eqn:E; simpl; rewrite ?E; reflexivity.
  - intros mid' Hne. unfold getMessage, updateMessageStatus. simpl.
    induction (messages db) as [|x l IH]; simpl; [reflexivity|].
    destruct (Nat.eqb_spec (msg_id x) mid) as [E|E]; simpl.
    + destruct (Nat.eqb_spec (msg_id x) mid'); [congruence|exact IH].
    + destruct (Nat.eqb (msg_id x) mid'); [reflexivity|exact IH].
Qed.

(** [getResponseToMessage] after [createMessage]: an existing answer
    stays the answer (the earliest row wins), and a message without one
    gets the new row exactly when it is a response to it. *)
Theorem getResponseToMessage_createMessage (db db' : DB) (i : CreateMessageInput) (m : Message)
    (mid : uuid) :
  createMessage db i = Some (m, db') ->
  getResponseToMessage db' mid =
    match getResponseToMessage db mid with
    | Some r => Some r
    | None => if decide (i_response_to_id i = Some mid) then Some m else None
    end.
Proof.
  unfold createMessage. case_match; [|discriminate].
  destruct (negb (response_ref_ok db i)); [discriminate|]. simpl.
  intros Hc. injection Hc as <- <-.
  unfold getResponseToMessage. simpl. rewrite find_app.
  case_match; [reflexivity|]. simpl.
  destruct (i_response_to_id i) as [r|]; simpl.
  - destruct (Nat.eqb_spec r mid); case_decide; simpl; congruence.
  - reflexivity.
Qed.

Lemma getResponseToMessage_createMessage_witness :
  getResponseToMessage dbAsked 1%nat = None /\
  exists m db', createMessage dbAsked (mkCreateMessageInput 0%nat claude codex "pong" None None (Some 1%nat))
                  = Some (m, db') /\ getResponseToMessage db' 1%nat = Some m.
Proof.
  split; [reflexivity|].
  destruct (createMessage dbAsked (mkCreateMessageInput 0%nat claude codex "pong" None None (Some 1%nat)))
    as [[m db']|] eqn:E; [|discriminate].
  exists m, db'. split; [reflexivity|].
  rewrite (getResponseToMessage_createMessage _ _ _ _ 1%nat E). reflexivity.
Defined.

(** [getConversationMessages] pages: the page at [offset] of size [l1]
    followed by the page at [offset + l1] of size [l2] is the page at
    [offset] of size [l1 + l2]; the default offset is 0; a page past the
    end is empty. *)
Theorem getConversationMessages_pages (db : DB) (cid : uuid) (l1 l2 offset : nat) :
  getConversationMessagesAt db cid l1 offset ++ getConversationMessagesAt db cid l2 (offset + l1) =
    getConversationMessagesAt db cid (l1 + l2) offset /\
  getConversationMessages db cid l1 = getConversationMessagesAt db cid l1 0 /\
  (length (filter (fun m => Nat.eqb (conversation_id m) cid = true) (messages db)) <= offset ->
   getConversationMessagesAt db cid l1 offset = [])%nat.
Proof.
  unfold getConversationMessagesAt, getConversationMessages.
  split; [|split].
  - rewrite <- drop_drop. apply take_take_drop.
  - reflexivity.
  - intros H. rewrite drop_ge; [apply take_nil | exact H].
Qed.

Lemma str_app_assoc (a b c : string) : (a +:+ b) +:+ c = a +:+ (b +:+ c).
Proof. induction a as [|x a IH]; [reflexivity | exact (f_equal (String x) IH)]. Qed.

Lemma str_app_nil_r (a : string) : a +:+ EmptyString = a.
Proof. induction a as [|x a IH]; [reflexivity | exact (f_equal (String x) IH)]. Qed.

(** [buildConversationContext] is empty exactly when the conversation
    has no messages among the first 20; otherwise it starts with the
    first sender's tag. *)
Theorem buildConversationContext_empty (db : DB) (cid : uuid) :
  (buildConversationContext db cid = EmptyString <-> getConversationMessages db cid 20 = []) /\
  (forall m rest, getConversationMessages db cid 20 = m :: rest ->
     exists tail, buildConversationContext db cid =
       "[" +:+ ClientId_to_string (sender m) +:+ "]: " +:+ content m +:+ tail).
Proof.
  unfold buildConversationContext.
  destruct (getConversationMessages db cid 20) as [|m [|m' rest]].
  - split; [tauto | intros ? ? H; discriminate].
  - split; [split; [|discriminate]; destruct (ClientId_to_string (sender m)); discriminate|].
    intros ? ? H. injection H as <- <-. exists EmptyString. simpl.
    rewrite str_app_nil_r. reflexivity.
  - split; [split; [|discriminate]; simpl; discriminate|].
    intros ? ? H. injection H as <- <-.
    set (F := fun m : Message => "[" +:+ ClientId_to_string (sender m) +:+ "]: " +:+ content m).
    exists (nl2 +:+ String.concat nl2 (map F (m' :: rest))).
    change (String.concat nl2 (map F (m :: m' :: rest)))
      with (F m +:+ (nl2 +:+ String.concat nl2 (map F (m' :: rest)))).
    unfold F at 1. rewrite !str_app_assoc. reflexivity.
Qed.

(** *** The conversations table *)

(** [closeConversation]: a missing id returns [null] and changes
    nothing; an existing one comes back [completed], with [closed_at]
    and [updated_at] set to now and its creator kept, and the other
    conversations are left as they were. *)
Theorem closeConversation_result (db : DB) (cid : uuid) :
  (getConversation db cid = None -> closeConversation db cid = (None, db)) /\
  (forall c, getConversation db cid = Some c ->
     exists c', fst (closeConversation db cid) = Some c' /\
       getConversation (snd (closeConversation db cid)) cid = Some c' /\
       conv_id c' = cid /\ conv_status c' = c_completed /\ closed_at c' = Some (now db) /\
       conv_updated_at c' = now db /\ created_by c' = created_by c) /\
  (forall cid', cid' <> cid ->
     getConversation (snd (closeConversation db cid)) cid' = getConversation db cid').
Proof.
  split; [|split].
  - intros Hn. unfold closeConversation. unfold getConversation in Hn.
    rewrite (map_id_no_hit _ _ _ Hn), set_conversations_same.
    unfold getConversation. rewrite Hn. reflexivity.
  - intros c Hc. unfold closeConversation, getConversation in *. simpl.
    rewrite find_map_same.
    + rewrite Hc. simpl. apply find_some in Hc as [_ Hid].
      rewrite Hid. apply Nat.eqb_eq in Hid.
      eexists; repeat split; simpl; auto.
    + intros x. destruct (Nat.eqb (conv_id x) cid) eqn:E; simpl; rewrite ?E; reflexivity.
  - intros cid' Hne. unfold closeConversation, getConversation. simpl.
    induction (conversations db) as [|x l IH]; simpl; [reflexivity|].
    destruct (Nat.eqb_spec (conv_id x) cid) as [E|E]; simpl.
    + destruct (Nat.eqb_spec (conv_id x) cid'); [congruence|exact IH].
    + destruct (Nat.eqb (conv_id x) cid'); [reflexivity|exact IH].
Qed.

(** [createConversation] with a fresh uuid, then [getConversation] and
    [closeConversation]: the new conversation is found [active] with no
    [closed_at], and closing it finds it [completed]. *)
Theorem createConversation_lifecycle (db : DB) (by_ : ClientId) :
  getConversation db (next_uuid db) = None ->
  let '(c, db1) := createConversation db by_ in
  getConversation db1 (conv_id c) = Some c /\
  conv_status c = c_active /\ closed_at c = None /\ created_by c = by_ /\
  (forall cid, cid <> conv_id c -> getConversation db1 cid = getConversation db cid) /\
  option_map conv_status (fst (closeConversation db1 (conv_id c))) = Some c_completed.
Proof.
  intros Hn. unfold createConversation, fresh_uuid, getConversation in *. simpl.
  rewrite find_app, Hn. simpl. rewrite Nat.eqb_refl.
  split; [reflexivity|].
  do 3 (split; [reflexivity|]).
  split.
  - intros cid Hne. rewrite find_app. case_match; [reflexivity|]. simpl.
    destruct (Nat.eqb_spec (next_uuid db) cid); [congruence|reflexivity].
  - unfold closeConversation, getConversation. simpl.
    rewrite find_map_same.
    + rewrite find_app, Hn. simpl. rewrite Nat.eqb_refl. simpl. rewrite Nat.eqb_refl. reflexivity.
    + intros x. destruct (Nat.eqb (conv_id x) (next_uuid db)) eqn:E; simpl; rewrite ?E; reflexivity.
Qed.

Lemma createConversation_lifecycle_witness :
  getConversation db0 (next_uuid db0) = None /\
  conv_status (fst (createConversation db0 claude)) = c_active.
Proof.
  split; [reflexivity|].
  pose proof (createConversation_lifecycle db0 claude eq_refl) as H.
  destruct (createConversation db0 claude) as [c db1]. simpl. exact (proj1 (proj2 H)).
Defined.

(** *** The client registry and the session hooks *)

(** [ClientRegistry]: [setOnline] then [getSessionId] and [isOnline]
    give the session back; [setOffline] removes the client whatever its
    session; a client's entry does not affect the other client; [clear]
    leaves nobody online. *)
Theorem registry_round_trip (r : Registry.ClientRegistry) (c : ClientId) (sid : string) :
  Registry.getSessionId (Registry.setOnline r c sid) c = Some sid /\
  Registry.isOnline (Registry.setOnline r c sid) c = true /\
  Registry.isOnline (Registry.setOffline r c) c = false /\
  Registry.getSessionId (Registry.setOffline (Registry.setOnline r c sid) c) c = None /\
  (forall c', c' <> c ->
     Registry.getSessionId (Registry.setOnline r c sid) c' = Registry.getSessionId r c' /\
     Registry.getSessionId (Registry.setOffline r c) c' = Registry.getSessionId r c') /\
  (forall c', Registry.isOnline (Registry.clear r) c' = false).
Proof.
  unfold Registry.getSessionId, Registry.isOnline, Registry.setOnline, Registry.setOffline,
    Registry.clear, Registry.emptyRegistry.
  assert (Hr : ClientId_eqb c c = true) by (apply ClientId_eqb_true; reflexivity).
  rewrite Hr. repeat split; try reflexivity;
    destruct (ClientId_eqb c' c) eqn:E; try reflexivity; apply ClientId_eqb_true in E; congruence.
Qed.

Lemma attemptDelivery_clients (db : DB) (t : ClientId) (item : QueuedMessage) :
  clients (fst (Queue.attemptDelivery db t item)) = clients db.
Proof.
  unfold Queue.attemptDelivery. destruct (getMessage db (message_id item)); [|reflexivity].
  destruct (negb (isClientOnline db t)); reflexivity.
Qed.

Lemma deliverAll_clients (env : nat -> DB -> DB) (i : nat) (db : DB) (t : ClientId)
    (items : list QueuedMessage) :
  (forall k d, clients (env k d) = clients d) ->
  clients (fst (Queue.deliverAll env i db t items)) = clients db.
Proof.
  intros He. revert i db. induction items as [|item rest IH]; intros i db; [reflexivity|].
  simpl. destruct (Queue.attemptDelivery db t item) as [db1 r] eqn:A.
  destruct (Queue.deliverAll env (S i) (env i db1) t rest) as [db2 rs] eqn:D. simpl.
  specialize (IH (S i) (env i db1)). rewrite D in IH. simpl in IH.
  rewrite IH, He. pose proof (attemptDelivery_clients db t item) as H. rewrite A in H. exact H.
Qed.

Lemma isClientOnline_ext (db db' : DB) (c : ClientId) :
  clients db' = clients db -> isClientOnline db' c = isClientOnline db c.
Proof. unfold isClientOnline. intros ->. reflexivity. Qed.

(** [transport.onclose] of an identified session: afterwards both the
    registry and the [clients] table say the client is offline, even when
    another of its sessions is still in [sessions]; only the closed
    session's entry is deleted. *)
Theorem onclose_marks_offline (srv : Http.Server) (s : string) (c : ClientId) :
  Http.srv_sessions srv !! s = Some (Some c) -> s <> EmptyString ->
  let srv' := Http.onclose srv (Some s) in
  Registry.isOnline (Http.srv_registry srv') c = false /\
  isClientOnline (Http.srv_db srv') c = false /\
  Http.srv_sessions srv' !! s = None /\
  (forall s', s' <> s -> Http.srv_sessions srv' !! s' = Http.srv_sessions srv !! s').
Proof.
  intros Hs Hne. cbv zeta. unfold Http.onclose.
  destruct (String.eqb_spec s EmptyString) as [E|E]; [congruence|].
  rewrite Hs. cbn [Http.srv_registry Http.srv_db Http.srv_sessions].
  assert (Hr : ClientId_eqb c c = true) by (apply ClientId_eqb_true; reflexivity).
  unfold Registry.isOnline, Registry.setOffline, isClientOnline, setClientOffline. simpl.
  rewrite Hr. repeat split.
  - apply lookup_delete_eq.
  - intros s' Hs'. apply lookup_delete_ne. congruence.
Qed.

Lemma onclose_marks_offline_witness :
  Http.srv_sessions srvTwo !! "s2" = Some (Some claude) /\
  Http.srv_sessions (Http.onclose srvTwo (Some "s1")) !! "s2" = Some (Some claude) /\
  Registry.isOnline (Http.srv_registry (Http.onclose srvTwo (Some "s1"))) claude = false.
Proof.
  assert (H := onclose_marks_offline srvTwo "s1" claude eq_refl ltac:(discriminate)).
  cbv zeta in H. destruct H as (H1 & _ & _ & H4).
  split; [reflexivity|]. split; [rewrite (H4 "s2" ltac:(discriminate)); reflexivity | exact H1].
Defined.

(** The session hooks keep the registry and the [clients] table in
    agreement: [onsessioninitialized] (when what runs during the drain's
    [await]s does not change client statuses) and [onclose]. *)
Theorem session_hooks_keep_status_in_sync (env : nat -> DB -> DB) (srv : Http.Server) :
  status_in_sync srv ->
  (forall k d, clients (env k d) = clients d) ->
  (forall sid cid, status_in_sync (Http.onsessioninitialized env srv sid cid)) /\
  (forall sid, status_in_sync (Http.onclose srv sid)).
Proof.
  intros Hs He. split.
  - intros sid [c|]; [|exact Hs]. intros c'. unfold Http.onsessioninitialized.
    cbn [Http.srv_registry Http.srv_db].
    unfold Queue.processQueueForTarget.
    destruct (negb (isClientOnline (updateClientStatus (Http.srv_db srv) c online) c)); cbn [fst].
    + unfold Registry.isOnline, Registry.setOnline, isClientOnline, updateClientStatus. simpl.
      destruct (ClientId_eqb c' c); [reflexivity|exact (Hs c')].
    + rewrite (isClientOnline_ext _ _ _ (deliverAll_clients _ _ _ _ _ He)).
      unfold Registry.isOnline, Registry.setOnline, isClientOnline, updateClientStatus. simpl.
      destruct (ClientId_eqb c' c); [reflexivity|exact (Hs c')].
  - intros [s|]; [|exact Hs]. unfold Http.onclose.
    destruct (String.eqb s EmptyString); [exact Hs|].
    destruct (Http.srv_sessions srv !! s) as [[c|]|]; try exact Hs.
    intros c'. unfold Registry.isOnline, Registry.setOffline, isClientOnline, setClientOffline. simpl.
    destruct (ClientId_eqb c' c); [reflexivity|exact (Hs c')].
Qed.

Lemma session_hooks_keep_status_in_sync_witness :
  status_in_sync srvEmpty /\
  status_in_sync (Http.onsessioninitialized noEnv srvEmpty "s1" (Some codex)).
Proof.
  assert (H0 : status_in_sync srvEmpty) by (intros []; reflexivity).
  split; [exact H0|].
  exact (proj1 (session_hooks_keep_status_in_sync noEnv srvEmpty H0 (fun _ _ => eq_refl)) "s1" (Some codex)).
Defined.

(** *** The dispatcher and the [send_message] tool *)

Lemma getMessage_present_update (db : DB) (mid mid' : uuid) (st : MessageStatus) :
  getMessage db mid' <> None -> getMessage (updateMessageStatus db mid st) mid' <> None.
Proof.
  unfold getMessage, updateMessageStatus. simpl. rewrite find_map_same.
  - destruct (find _ _); simpl; congruence.
  - intros x. destruct (Nat.eqb (msg_id x) mid); reflexivity.
Qed.

Lemma createMessage_present (db db' : DB) (i : CreateMessageInput) (m : Message) :
  createMessage db i = Some (m, db') ->
  status m = pending /\ getMessage db' (msg_id m) <> None /\
  message_queue db' = message_queue db /\
  (forall mid, getMessage db mid <> None -> getMessage db' mid <> None).
Proof.
  unfold createMessage. case_match; [|discriminate].
  destruct (negb (response_ref_ok db i)); [discriminate|]. simpl.
  intros Hc. injection Hc as <- <-. unfold getMessage. simpl.
  split; [reflexivity|]. split; [|split; [reflexivity|]].
  - rewrite find_app. case_match; [discriminate|]. simpl. rewrite Nat.eqb_refl. discriminate.
  - intros mid. rewrite find_app. case_match; congruence.
Qed.

Lemma enqueueMessage_messages (db db' : DB) (i : CreateQueuedMessageInput) (row : QueuedMessage) :
  enqueueMessage db i = Some (row, db') -> messages db' = messages db.
Proof.
  unfold enqueueMessage. destruct (existsb _ _); [discriminate|].
  destruct (getMessage _ _); [|discriminate]. intros H. injection H as <- <-. reflexivity.
Qed.

Lemma route_result (env : DispatchEnv) (db db' : DB) (o : SendMessageOpts) (conv : Conversation)
    (m : Message) (r : SendMessageResult) :
  route env db o conv m = Some (db', r) ->
  r_message r = m /\ r_conversation r = conv /\
  (forall mid, getMessage db mid <> None -> getMessage db' mid <> None).
Proof.
  unfold route. intros H.
  repeat case_match; simplify_eq; (split; [reflexivity|]); (split; [reflexivity|]);
    intros mid Hm; try exact Hm;
    repeat match goal with
    | Hc : createMessage _ _ = Some _ |- _ =>
        apply (proj2 (proj2 (proj2 (createMessage_present _ _ _ _ Hc)))) in Hm; clear Hc
    | He : enqueueMessage _ _ = Some _ |- _ =>
        unfold getMessage in *; rewrite (enqueueMessage_messages _ _ _ _ He); exact Hm
    end;
    try (apply getMessage_present_update; exact Hm).
Qed.

Lemma sendMessage_steps (env : DispatchEnv) (db db' : DB) (o : SendMessageOpts)
    (res : SendMessageResult) :
  sendMessage env db o = Some (db', res) ->
  exists conv db1 m db2 r0,
    resolveConversation db o = Some (conv, db1) /\
    createMessage db1 (mkCreateMessageInput (conv_id conv) (o_sender o) (o_target o)
                         (o_content o) (messageType o) (o_priority o) None) = Some (m, db2) /\
    route env db2 o conv m = Some (db', r0) /\
    r_message res = r_message r0 /\ r_conversation res = r_conversation r0 /\
    invoked res = invoked r0 /\ invokedViaMcp res = invokedViaMcp r0 /\
    selectedAgent res = selectedAgent r0.
Proof.
  intros H. unfold sendMessage in H.
  destruct (resolveConversation db o) as [[conv db1]|] eqn:E1; [|discriminate].
  destruct (createMessage db1 _) as [[m db2]|] eqn:E2; [|discriminate].
  destruct (route env db2 o conv m) as [[db3 r0]|] eqn:E3; [|discriminate].
  exists conv, db1, m, db2, r0. split; [reflexivity|]. split; [first [reflexivity | exact E2]|].
  repeat case_match; simplify_eq; repeat split; first [reflexivity | assumption].
Qed.

(** The [send_message] guards: without an identified client, or to
    oneself, or into a conversation id that does not exist, the tool
    answers an error and writes nothing. *)
Theorem send_message_tool_guards (cl : option ClientId) (env : DispatchEnv) (db : DB)
    (input : SendMessageInput) :
  (cl = None -> send_message_tool cl env db input = (db, send_error "Unknown client")) /\
  (cl = Some (in_target input) ->
     send_message_tool cl env db input = (db, send_error "Cannot send message to self")) /\
  (forall c cid, cl = Some c -> c <> in_target input ->
     in_conversation_id input = Some cid -> getConversation db cid = None ->
     send_message_tool cl env db input = (db, send_thrown)).
Proof.
  unfold send_message_tool. split; [intros ->; reflexivity|]. split.
  - intros ->. assert (Hr : ClientId_eqb (in_target input) (in_target input) = true)
      by (apply ClientId_eqb_true; reflexivity). rewrite Hr. reflexivity.
  - intros c cid -> Hne Hcid Hn.
    destruct (ClientId_eqb (in_target input) c) eqn:E; [apply ClientId_eqb_true in E; congruence|].
    unfold sendMessage, resolveConversation. simpl. rewrite Hcid, Hn. reflexivity.
Qed.

(** A successful [send_message] always reports [status: pending], the
    message row's status at creation, and the message it reports exists
    in the store; when the target has a registry session the stored row
    is already [delivered]. *)
Theorem send_message_tool_reports_pending (c : ClientId) (env : DispatchEnv) (db db' : DB)
    (input : SendMessageInput) (cid mid : uuid) (st : MessageStatus) (inv : bool)
    (ag : option AgentName) (rid : option uuid) :
  send_message_tool (Some c) env db input = (db', send_ok cid mid st inv ag rid) ->
  st = pending /\ getMessage db' mid <> None /\
  (Registry.isOnline (registry env) (in_target input) = true ->
   exists m, getMessage db' mid = Some m /\ status m = delivered).
Proof.
  unfold send_message_tool. destruct (ClientId_eqb (in_target input) c); [discriminate|].
  destruct (sendMessage _ _ _) as [[d r]|] eqn:S; [|discriminate].
  intros H. injection H as <- <- <- <- <- <-.
  destruct (sendMessage_steps _ _ _ _ _ S) as (conv & db1 & m & db2 & r0 & E1 & E2 & E3 & Hm & _).
  destruct (route_result _ _ _ _ _ _ _ E3) as (Hm0 & _ & Hp).
  destruct (createMessage_present _ _ _ _ E2) as (Hst & Hpres & _).
  rewrite Hm, Hm0. split; [exact Hst|]. split; [exact (Hp _ Hpres)|].
  intros Hon. unfold route in E3. cbn [o_target] in E3. rewrite Hon in E3.
  injection E3 as <- _.
  destruct (getMessage db2 (msg_id m)) as [m1|] eqn:G; [|congruence].
  destruct (getMessage_updateMessageStatus _ _ delivered _ G) as (m' & G' & _ & Hs' & _).
  exists m'. split; assumption.
Qed.

Lemma send_message_tool_reports_pending_witness :
  exists db' cid mid inv ag rid,
    send_message_tool (Some claude) (silentPeer codexOnly) db0
      (mkSendMessageInput None codex "hi" normal false None) = (db', send_ok cid mid pending inv ag rid) /\
    exists m, getMessage db' mid = Some m /\ status m = delivered.
Proof.
  destruct (send_message_tool (Some claude) (silentPeer codexOnly) db0
      (mkSendMessageInput None codex "hi" normal false None)) as [db' [cid mid st inv ag rid| |]] eqn:E;
    [|discriminate|discriminate].
  destruct (send_message_tool_reports_pending _ _ _ _ _ _ _ _ _ _ _ E) as (-> & _ & Hon).
  exists db', cid, mid, inv, ag, rid. split; [reflexivity|]. exact (Hon eq_refl).
Defined.

Lemma resolveConversation_queue (db db1 : DB) (o : SendMessageOpts) (c : Conversation) :
  resolveConversation db o = Some (c, db1) -> message_queue db1 = message_queue db.
Proof.
  unfold resolveConversation. repeat case_match; intros Hr; simplify_eq; try reflexivity.
  unfold createConversation, fresh_uuid in Hr. simpl in Hr. injection Hr as _ <-. reflexivity.
Qed.

(** A message to Codex while Codex has no registry session is never put
    in the queue: [sendMessage] invokes Codex directly (over MCP only
    when [codexMcpEnabled]) and leaves [message_queue] as it was, whether
    or not an answer comes back. *)
Theorem sendMessage_offline_codex_not_queued (env : DispatchEnv) (db db' : DB)
    (o : SendMessageOpts) (res : SendMessageResult) :
  o_target o = codex ->
  Registry.isOnline (registry env) codex = false ->
  sendMessage env db o = Some (db', res) ->
  message_queue db' = message_queue db /\ invoked res = true /\
  (codexMcpEnabled env = false -> invokedViaMcp res = false).
Proof.
  intros Ht Hoff S.
  destruct (sendMessage_steps _ _ _ _ _ S) as (conv & db1 & m & db2 & r0 & E1 & E2 & E3 & _ & _ & Hi & Hv & _).
  rewrite Hi, Hv.
  pose proof (resolveConversation_queue _ _ _ _ E1) as Q1.
  destruct (createMessage_present _ _ _ _ E2) as (_ & _ & Q2 & _).
  unfold route in E3. rewrite Ht, Hoff in E3. cbn [ClientId_eqb negb] in E3.
  unfold tryCodexMcpServer in E3.
  destruct (codexMcpEnabled env) eqn:Hen; cbn [negb] in E3.
  - repeat case_match; simplify_eq;
      repeat match goal with
      | Hc : createMessage _ _ = Some _ |- _ =>
          destruct (createMessage_present _ _ _ _ Hc) as (_ & _ & ? & _); clear Hc
      end;
      (split; [simpl in *; congruence|]); (split; [reflexivity | discriminate]).
  - repeat case_match; simplify_eq;
      repeat match goal with
      | Hc : createMessage _ _ = Some _ |- _ =>
          destruct (createMessage_present _ _ _ _ Hc) as (_ & _ & ? & _); clear Hc
      end;
      (split; [simpl in *; congruence|]); (split; [reflexivity | reflexivity]).
Qed.

Lemma sendMessage_offline_codex_not_queued_witness :
  exists db' res,
    sendMessage (answeringPeer Registry.emptyRegistry) db0 (askCodex None "hello") = Some (db', res) /\
    message_queue db' = [] /\ invoked res = true.
Proof.
  destruct (sendMessage (answeringPeer Registry.emptyRegistry) db0 (askCodex None "hello"))
    as [[db' res]|] eqn:E; [|discriminate].
  destruct (sendMessage_offline_codex_not_queued (answeringPeer Registry.emptyRegistry) db0 db' (askCodex None "hello") res eq_refl eq_refl E) as (Q & I & _).
  exists db', res. split; [reflexivity|]. split; [exact Q | exact I].
Defined.

(** *** Agent selection *)

Lemma toLowerCase_app (a b : string) : toLowerCase (a +:+ b) = toLowerCase a +:+ toLowerCase b.
Proof. induction a as [|x a IH]; [reflexivity|]. exact (f_equal (String (lower_char x)) IH). Qed.

Lemma lower_char_idem (c : Ascii.ascii) : lower_char (lower_char c) = lower_char c.
Proof.
  destruct c as [[] [] [] [] [] [] [] []]; vm_compute; reflexivity.
Qed.

Lemma toLowerCase_idem (s : string) : toLowerCase (toLowerCase s) = toLowerCase s.
Proof.
  induction s as [|x s IH]; [reflexivity|]. cbn [toLowerCase]. rewrite lower_char_idem, IH. reflexivity.
Qed.

(** [selectAgent] ignores case, and once some text selects the oracle,
    any text containing it does too: extra words never switch a
    debugging question back to the architect. *)
Theorem selectAgent_case_and_extension (c : string) :
  selectAgent (toLowerCase c) = selectAgent c /\
  (selectAgent c = ORACLE -> forall p q, selectAgent (p +:+ c +:+ q) = ORACLE).
Proof.
  unfold selectAgent. rewrite toLowerCase_idem. split; [reflexivity|].
  intros Ho p q.
  destruct (scanTriggers_cases (toLowerCase c) oracleTriggers) as [[_ [t [Hin Ht]]] | [Ha _]];
    [| rewrite Ha in Ho; discriminate].
  apply includes_spec in Ht as [p' [q' Hpq]].
  destruct (scanTriggers_cases (toLowerCase (p +:+ c +:+ q)) oracleTriggers) as [[Ho' _] | [_ Hn]];
    [exact Ho'|].
  specialize (Hn t Hin). exfalso.
  assert (Hocc : occurs t (toLowerCase (p +:+ c +:+ q))).
  { rewrite !toLowerCase_app, Hpq. exists (toLowerCase p +:+ p'), (q' +:+ toLowerCase q).
    rewrite !str_app_assoc. reflexivity. }
  apply includes_spec in Hocc. congruence.
Qed.

Lemma selectAgent_case_and_extension_witness :
  selectAgent "bug" = ORACLE /\ selectAgent ("please fix " +:+ "bug" +:+ " now") = ORACLE.
Proof.
  assert (H : selectAgent "bug" = ORACLE) by reflexivity.
  split; [exact H | exact (proj2 (selectAgent_case_and_extension "bug") H "please fix " " now")].
Defined.

(** *** The security hook *)

Lemma existsb_eqb_In (h : string) (l : list string) : existsb (String.eqb h) l = true <-> In h l.
Proof.
  rewrite existsb_exists. split.
  - intros [x [Hx E]]. apply String.eqb_eq in E. subst. exact Hx.
  - intros Hin. exists h. split; [exact Hin | apply String.eqb_refl].
Qed.

(** The [preHandler] hook lets a request through exactly when it comes
    from a loopback address, carries a [Host] header from
    [allowedHosts], and, for a URL starting with [/mcp], has no
    (or an empty) [Origin]; every refusal is a 403. *)
Theorem preHandler_decision (port : N) (req : Security.Request) :
  (Security.preHandler port req = None <->
     Security.isLoopback (Security.req_ip req) = true /\
     (exists h, Security.req_host req = Some h /\ In h (Security.allowedHosts port)) /\
     (String.prefix "/mcp" (Security.req_url req) = true ->
        Security.req_origin req = None \/ Security.req_origin req = Some EmptyString)) /\
  (forall code err, Security.preHandler port req = Some (code, err) -> code = 403).
Proof.
  unfold Security.preHandler.
  destruct (Security.isLoopback (Security.req_ip req)); cbn [negb].
  2:{ split; [split; [discriminate | intros [H _]; discriminate] | intros ? ? H; congruence]. }
  destruct (Security.req_host req) as [h|].
  2:{ split; [split; [discriminate | intros (_ & [h [H _]] & _); discriminate] | intros ? ? H; congruence]. }
  destruct (existsb (String.eqb h) (Security.allowedHosts port)) eqn:Eh; cbn [negb].
  2:{ split; [|intros ? ? H; congruence]. split; [discriminate|].
      intros (_ & [h' [H Hin]] & _). injection H as <-. apply existsb_eqb_In in Hin. congruence. }
  apply existsb_eqb_In in Eh.
  destruct (String.prefix "/mcp" (Security.req_url req)).
  2:{ split; [|intros ? ? H; congruence]. split; [intros _; split; [reflexivity|]; split; [eauto|discriminate] | reflexivity]. }
  destruct (Security.req_origin req) as [o|].
  2:{ split; [|intros ? ? H; congruence]. split; [intros _; split; [reflexivity|]; split; [eauto|auto] | reflexivity]. }
  destruct (String.eqb_spec o EmptyString) as [->|Ho].
  - split; [|intros ? ? H; congruence]. split; [intros _; split; [reflexivity|]; split; [eauto|auto] | reflexivity].
  - split; [|intros ? ? H; congruence]. split; [discriminate|].
    intros (_ & _ & H). destruct (H eq_refl) as [H1|H1]; congruence.
Qed.

(** *** Client identification *)

(** [identifyClient]: a valid [x-client-id] header decides; without one,
    a User-Agent containing [Claude] means Claude whatever the query
    says; nobody is identified only when header, User-Agent and query
    all fail.  [getOtherClient] swaps the two clients. *)
Theorem identifyClient_precedence (r : Identity.ClientRequest) :
  (forall c, Identity.clientOfName (Identity.x_client_id r) = Some c -> Identity.identifyClient r = Some c) /\
  (Identity.clientOfName (Identity.x_client_id r) = None ->
     occurs "Claude" (default EmptyString (Identity.user_agent r)) -> Identity.identifyClient r = Some claude) /\
  (Identity.identifyClient r = None ->
     Identity.clientOfName (Identity.x_client_id r) = None /\
     Identity.clientOfName (Identity.query_client r) = None /\
     Forall (fun p => ~ occurs p (default EmptyString (Identity.user_agent r)))
       ["claude-code"; "Claude"; "codex"; "Codex"]) /\
  (forall c, Identity.getOtherClient (Identity.getOtherClient c) = c /\ Identity.getOtherClient c <> c).
Proof.
  unfold Identity.identifyClient.
  split; [intros c ->; reflexivity|].
  split.
  { intros -> Hocc. apply includes_spec in Hocc. rewrite Hocc, orb_true_r. reflexivity. }
  split; [|intros []; split; (reflexivity || discriminate)].
  destruct (Identity.clientOfName (Identity.x_client_id r)); [discriminate|].
  set (ua := default EmptyString (Identity.user_agent r)).
  destruct (includes ua "claude-code") eqn:E1; [discriminate|].
  destruct (includes ua "Claude") eqn:E2; [discriminate|].
  destruct (includes ua "codex") eqn:E3; [discriminate|].
  destruct (includes ua "Codex") eqn:E4; [discriminate|].
  cbn [orb]. intros Hq. split; [reflexivity|]. split; [exact Hq|].
  repeat constructor; intros Ho; apply includes_spec in Ho; congruence.
Qed.

(** *** The raw-stdout fallback of [invokeCodexExec] *)

Lemma str_length_app (a b : string) : String.length (a +:+ b) = (String.length a + String.length b)%nat.
Proof. induction a as [|x a IH]; simpl; [reflexivity | rewrite IH; reflexivity]. Qed.

Lemma substring0_prefix (n : nat) (s : string) :
  (String.length (String.substring 0 n s) = Nat.min n (String.length s))%nat /\
  exists tail, s = String.substring 0 n s +:+ tail.
Proof.
  revert n. induction s as [|x s IH]; intros [|n]; simpl.
  - split; [reflexivity | exists EmptyString; reflexivity].
  - split; [reflexivity | exists EmptyString; reflexivity].
  - split; [reflexivity | exists (String x s); reflexivity].
  - destruct (IH n) as [Hl [tail Ht]]. split; [rewrite Hl; reflexivity|].
    exists tail. exact (f_equal (String x) Ht).
Qed.

(** The fallback keeps a non-empty extracted response, and keeps whatever
    extraction gave when stdout is empty; otherwise the response is the
    stdout itself when it has at most [MAX_RESPONSE_SIZE] characters, and
    else its first [MAX_RESPONSE_SIZE] characters followed by the
    truncation note, so it is never longer than [MAX_RESPONSE_SIZE] plus
    the note. *)
Theorem fallbackResponse_bounded (extracted : option string) (stdout : string) :
  (Dispatcher.truthy extracted = true -> Invoker.fallbackResponse extracted stdout = extracted) /\
  (stdout = EmptyString -> Invoker.fallbackResponse extracted stdout = extracted) /\
  (Dispatcher.truthy extracted = false -> stdout <> EmptyString ->
   exists r, Invoker.fallbackResponse extracted stdout = Some r /\
     (String.length r <= Invoker.MAX_RESPONSE_SIZE + String.length Invoker.truncationNote)%nat /\
     (String.length stdout <= Invoker.MAX_RESPONSE_SIZE -> r = stdout)%nat /\
     (Invoker.MAX_RESPONSE_SIZE < String.length stdout ->
        r = String.substring 0 Invoker.MAX_RESPONSE_SIZE stdout +:+ Invoker.truncationNote)%nat).
Proof.
  unfold Invoker.fallbackResponse. split; [|split].
  - intros ->. reflexivity.
  - intros ->. rewrite andb_false_r. reflexivity.
  - intros Ht Hs. rewrite Ht. destruct (String.eqb_spec stdout EmptyString) as [E|E]; [congruence|].
    cbn [negb andb].
    destruct (substring0_prefix Invoker.MAX_RESPONSE_SIZE stdout) as [Hl _].
    destruct (Nat.ltb_spec Invoker.MAX_RESPONSE_SIZE (String.length stdout)) as [Hlt|Hge].
    + eexists. split; [reflexivity|].
      rewrite str_length_app, Hl.
      split; [lia|]. split; [lia|]. reflexivity.
    + eexists. split; [reflexivity|].
      split; [lia|]. split; [reflexivity|]. lia.
Qed.

(** *** The event store *)

Lemma indexOfColon_app_none (s t : string) :
  EventStore.indexOfColon s = None ->
  EventStore.indexOfColon (s +:+ t) = option_map (Nat.add (String.length s)) (EventStore.indexOfColon t).
Proof.
  induction s as [|c s IH]; intros H.
  - change (EmptyString +:+ t) with t. destruct (EventStore.indexOfColon t); reflexivity.
  - change (String c s +:+ t) with (String c (s +:+ t)).
    cbn [EventStore.indexOfColon String.length] in *.
    destruct (Ascii.eqb c EventStore.colon_char); [discriminate|].
    destruct (EventStore.indexOfColon s) eqn:E; [discriminate|].
    rewrite (IH eq_refl). destruct (EventStore.indexOfColon t); reflexivity.
Qed.

Lemma indexOfColon_app_some (s t : string) (i : nat) :
  EventStore.indexOfColon s = Some i ->
  EventStore.indexOfColon (s +:+ t) = Some i /\ (i < String.length s)%nat.
Proof.
  revert i. induction s as [|c s IH]; intros i H; [discriminate|].
  change (String c s +:+ t) with (String c (s +:+ t)).
  cbn [EventStore.indexOfColon String.length] in *.
  destruct (Ascii.eqb c EventStore.colon_char).
  - injection H as <-. split; [reflexivity | lia].
  - destruct (EventStore.indexOfColon s) as [j|] eqn:E; [|discriminate].
    injection H as <-. destruct (IH j eq_refl) as [-> Hj]. split; [reflexivity | simpl; lia].
Qed.

Lemma substring0_app (s t : string) : String.substring 0 (String.length s) (s +:+ t) = s.
Proof.
  induction s as [|c s IH]; [destruct t; reflexivity|].
  change (String c s +:+ t) with (String c (s +:+ t)). simpl. rewrite IH. reflexivity.
Qed.

(** [parseStreamId] inverts [makeEventId] exactly for stream ids without
    a colon; for a stream id containing a colon it returns a shorter,
    different stream id. *)
Theorem parseStreamId_makeEventId (sid : string) (n : nat) :
  (EventStore.indexOfColon sid = None -> EventStore.parseStreamId (EventStore.makeEventId sid n) = sid) /\
  (EventStore.indexOfColon sid <> None ->
     EventStore.parseStreamId (EventStore.makeEventId sid n) <> sid /\
     (String.length (EventStore.parseStreamId (EventStore.makeEventId sid n)) < String.length sid)%nat).
Proof.
  unfold EventStore.parseStreamId, EventStore.makeEventId. split.
  - intros H. rewrite (indexOfColon_app_none _ _ H). simpl.
    rewrite Nat.add_0_r. apply substring0_app.
  - intros H. destruct (EventStore.indexOfColon sid) as [i|] eqn:E; [|congruence].
    destruct (indexOfColon_app_some sid (EventStore.colon +:+ pretty (N.of_nat n)) i E) as [-> Hi].
    destruct (substring0_prefix i (sid +:+ EventStore.colon +:+ pretty (N.of_nat n))) as [Hl _].
    rewrite str_length_app in Hl.
    assert (Hlen : String.length (String.substring 0 i (sid +:+ EventStore.colon +:+ pretty (N.of_nat n))) = i)
      by lia.
    split; [intros Heq; rewrite Heq in Hlen; lia | lia].
Qed.

(** An event stored on the stream with the empty id gets the id [":n"],
    whose parsed stream id is empty, so replaying after it never sends
    anything and returns the empty stream id. *)
Theorem replay_empty_stream_id (now now' : Z) (st : EventStore.InMemoryEventStore) (msg : string) :
  let '(st', eid) := EventStore.storeEvent now st EmptyString msg in
  EventStore.replayEventsAfter now' st' eid = (st', [], EmptyString).
Proof.
  unfold EventStore.storeEvent. cbv zeta.
  destruct (default _ _) as [ns evs idx].
  unfold EventStore.replayEventsAfter, EventStore.makeEventId. simpl.
  reflexivity.
Qed.

Lemma dropExpired_suffix (cutoff : Z) (evs : list EventStore.EventRecord) (idx : gmap string nat) :
  exists pre, evs = pre ++ fst (EventStore.dropExpired cutoff evs idx).
Proof.
  revert idx. induction evs as [|ev rest IH]; intros idx; simpl.
  - exists []. reflexivity.
  - destruct (EventStore.ts ev <? cutoff).
    + destruct (IH (delete (EventStore.id ev) idx)) as [pre Hpre]. exists (ev :: pre). simpl. congruence.
    + exists []. reflexivity.
Qed.

Lemma shiftN_drop (n : nat) (evs : list EventStore.EventRecord) (idx : gmap string nat) :
  fst (EventStore.shiftN n evs idx) = drop n evs.
Proof.
  revert evs idx. induction n as [|n IH]; intros [|ev rest] idx; simpl; try reflexivity. apply IH.
Qed.

Lemma pruneState_nextSeq (now ttl : Z) (maxE : nat) (s : EventStore.StreamState) :
  EventStore.nextSeq (EventStore.pruneState now ttl maxE s) = EventStore.nextSeq s.
Proof.
  unfold EventStore.pruneState.
  destruct (EventStore.dropExpired _ _ _) as [evs1 idx1].
  destruct (Nat.ltb maxE (length evs1)); [destruct (EventStore.shiftN _ _ _)|]; reflexivity.
Qed.

(** [pruneStream] on a stream keeps a suffix of its events, at most
    [maxEventsPerStream] of them, and never touches [nextSeq], so event
    ids are never reused. *)
Theorem pruneState_suffix (now ttl : Z) (maxE : nat) (s : EventStore.StreamState) :
  let s' := EventStore.pruneState now ttl maxE s in
  EventStore.nextSeq s' = EventStore.nextSeq s /\
  (exists pre, EventStore.events s = pre ++ EventStore.events s') /\
  (length (EventStore.events s') <= maxE)%nat.
Proof.
  cbv zeta. unfold EventStore.pruneState.
  pose proof (dropExpired_suffix (now - ttl) (EventStore.events s) (EventStore.indexById s)) as [pre Hpre].
  destruct (EventStore.dropExpired (now - ttl) (EventStore.events s) (EventStore.indexById s))
    as [evs1 idx1]. cbn [fst] in Hpre.
  destruct (Nat.ltb_spec maxE (length evs1)) as [Hlt|Hge].
  - pose proof (shiftN_drop (length evs1 - maxE) evs1
      (if Nat.eqb (size idx1) (length evs1) then idx1 else EventStore.rebuild evs1)) as Hd.
    destruct (EventStore.shiftN _ _ _) as [evs3 idx3]. cbn [fst] in Hd. subst evs3.
    cbn [EventStore.nextSeq EventStore.events].
    split; [reflexivity|]. split.
    + exists (pre ++ take (length evs1 - maxE) evs1). rewrite <- app_assoc, take_drop. exact Hpre.
    + rewrite length_drop. lia.
  - cbn [EventStore.nextSeq EventStore.events]. split; [reflexivity|]. split; [exists pre; exact Hpre | exact Hge].
Qed.

(** [storeEvent] numbers events per stream from 1: the returned id is
    [streamId:nextSeq], the record with the current time is the last
    event of the stream and is indexed at its position, [nextSeq] moves
    on by one, and the other streams are untouched. *)
Theorem storeEvent_appends (now : Z) (st : EventStore.InMemoryEventStore) (sid : string)
    (msg : string) :
  let seq := match EventStore.streams st !! sid with Some s => EventStore.nextSeq s | None => 1%nat end in
  let '(st', eid) := EventStore.storeEvent now st sid msg in
  eid = EventStore.makeEventId sid seq /\
  exists s', EventStore.streams st' !! sid = Some s' /\
    EventStore.nextSeq s' = S seq /\
    last (EventStore.events s') = Some (EventStore.mkEventRecord eid now msg) /\
    EventStore.indexById s' !! eid = Some (length (EventStore.events s') - 1)%nat /\
    (forall sid', sid' <> sid -> EventStore.streams st' !! sid' = EventStore.streams st !! sid') /\
    EventStore.ttlMs st' = EventStore.ttlMs st /\
    EventStore.maxEventsPerStream st' = EventStore.maxEventsPerStream st.
Proof.
  cbv zeta. unfold EventStore.storeEvent, EventStore.pruneStream.
  destruct (EventStore.streams st !! sid) as [s0|] eqn:E; cbn [EventStore.streams EventStore.ttlMs
    EventStore.maxEventsPerStream].
  - rewrite E. cbn [EventStore.streams EventStore.ttlMs EventStore.maxEventsPerStream].
    rewrite lookup_insert_eq. cbn [default from_option id]. rewrite pruneState_nextSeq.
    split; [reflexivity|]. eexists. rewrite lookup_insert_eq. split; [reflexivity|].
    cbn [EventStore.nextSeq EventStore.events EventStore.indexById].
    split; [reflexivity|]. split; [apply last_snoc|]. split.
    + rewrite lookup_insert_eq, length_app. simpl. f_equal; lia.
    + split; [|split; reflexivity]. intros sid' Hne.
      rewrite !lookup_insert_ne by congruence; try reflexivity.
  - rewrite lookup_insert_eq. cbn [EventStore.streams EventStore.ttlMs EventStore.maxEventsPerStream].
    rewrite lookup_insert_eq. cbn [default from_option id]. rewrite pruneState_nextSeq.
    split; [reflexivity|]. eexists. rewrite lookup_insert_eq. split; [reflexivity|].
    cbn [EventStore.nextSeq EventStore.events EventStore.indexById].
    split; [reflexivity|]. split; [apply last_snoc|]. split.
    + rewrite lookup_insert_eq, length_app. simpl. f_equal; lia.
    + split; [|split; reflexivity]. intros sid' Hne.
      rewrite !lookup_insert_ne by congruence; try reflexivity.
Qed.
